(** * Session-aware product extraction (src/main.py): a shallow embedding

    The program drives a browser through Playwright.  Everything the
    program computes itself (string splitting, trimming, integer parsing,
    the growth loop, the exception handlers, the order of the calls) is
    written here as Rocq functions that follow the Python text line by
    line.  Everything the browser answers is supplied by a [World]: a
    deterministic environment that, given the history of calls so far,
    says whether the next call raises and what it returns.

    Text is [string]; a character is a code point in U+0000..U+00FF. *)

From Stdlib Require Import String Ascii List ZArith NArith Bool Lia.
Import ListNotations.
Local Open Scope string_scope.
Local Open Scope Z_scope.

(** ** Python string primitives used by the program *)
Module Py.

(** [str.isspace] on one character, restricted to U+0000..U+00FF:
    TAB LF VT FF CR, FS GS RS US, SPACE, NEL and NBSP. *)
Definition is_space (c : ascii) : bool :=
  let n := N_of_ascii c in
  ((9 <=? n) && (n <=? 13) || (28 <=? n) && (n <=? 32)
   || (n =? 133) || (n =? 160))%N.

Fixpoint lstrip (s : string) : string :=
  match s with
  | EmptyString => EmptyString
  | String c s' => if is_space c then lstrip s' else s
  end.

Fixpoint rev_onto (s acc : string) : string :=
  match s with
  | EmptyString => acc
  | String c s' => rev_onto s' (String c acc)
  end.

Definition rev (s : string) : string := rev_onto s EmptyString.

Definition rstrip (s : string) : string := rev (lstrip (rev s)).

(** [s.strip()] *)
Definition strip (s : string) : string := rstrip (lstrip s).

Fixpoint drop (n : nat) (s : string) : string :=
  match n, s with
  | O, _ => s
  | S _, EmptyString => EmptyString
  | S n', String _ s' => drop n' s'
  end.

(** [cut sep s] finds the leftmost occurrence of [sep] in [s] and returns
    the text before it and the text after it ([str.partition] without the
    middle component); [None] when [sep] does not occur. *)
Fixpoint cut (sep s : string) : option (string * string) :=
  if prefix sep s then Some (EmptyString, drop (String.length sep) s)
  else match s with
       | EmptyString => None
       | String c s' =>
           match cut sep s' with
           | Some (a, r) => Some (String c a, r)
           | None => None
           end
       end.

(** [s.split(sep)] for a non-empty [sep]: the pieces between successive
    non-overlapping occurrences, scanned from the left.  Every round
    consumes at least one character, so [length s] rounds are enough. *)
Fixpoint split_rounds (n : nat) (sep s : string) : list string :=
  match n with
  | O => [s]
  | S n' =>
      match cut sep s with
      | None => [s]
      | Some (a, r) => a :: split_rounds n' sep r
      end
  end.

Definition split (sep s : string) : list string :=
  split_rounds (String.length s) sep s.

Definition digit_value (c : ascii) : option Z :=
  let n := N_of_ascii c in
  if ((48 <=? n) && (n <=? 57))%N then Some (Z.of_N n - 48) else None.

(** The digit part of an integer literal: decimal digits, single
    underscores allowed between two digits only. *)
Fixpoint digits (s : string) (acc : Z) (after_digit : bool) : option Z :=
  match s with
  | EmptyString => if after_digit then Some acc else None
  | String c s' =>
      match digit_value c with
      | Some d => digits s' (10 * acc + d) true
      | None =>
          if Ascii.eqb c "_"%char && after_digit then digits s' acc false
          else None
      end
  end.

(** [int(s)]: surrounding whitespace ignored, an optional sign, then the
    digits.  [None] stands for [ValueError]. *)
Definition int (s : string) : option Z :=
  match strip s with
  | String "+"%char r => digits r 0 false
  | String "-"%char r => option_map Z.opp (digits r 0 false)
  | t => digits t 0 false
  end.

(** [len(l)] *)
Definition len {A} (l : list A) : Z := Z.of_nat (List.length l).

(** [sep in s] *)
Definition contains (sep s : string) : bool :=
  match cut sep s with
  | Some _ => true
  | None => false
  end.

(** The number of positions of [s] at which [sep] starts. *)
Fixpoint occurrences (sep s : string) : nat :=
  ((if prefix sep s then 1 else 0) +
   match s with
   | EmptyString => 0
   | String _ s' => occurrences sep s'
   end)%nat.

(** [c in s] for one character. *)
Fixpoint has_char (c : ascii) (s : string) : bool :=
  match s with
  | EmptyString => false
  | String c' s' => Ascii.eqb c c' || has_char c s'
  end.

End Py.

(** ** The JavaScript the program hands to the browser

    [save_session] evaluates [JSON.stringify(sessionStorage)] in the page
    and [load_session] registers an init script built around the saved
    text.  This module gives the meaning of those two pieces of
    JavaScript.  A result is a value, a [SyntaxError], or [Unmodelled]
    when the text leaves the fragment of the language described here
    (code points above U+00FF, legacy octal escapes, line continuations,
    JSON members that are not strings). *)
Module Js.

Inductive js (A : Type) : Type :=
| Value (a : A)
| SyntaxError
| Unmodelled.
Arguments Value {A} a.
Arguments SyntaxError {A}.
Arguments Unmodelled {A}.

(** [window.sessionStorage]: string keys, string values. *)
Definition storage : Type := list (string * string).

Fixpoint getItem (k : string) (st : storage) : option string :=
  match st with
  | [] => None
  | (k', v) :: st' => if String.eqb k k' then Some v else getItem k st'
  end.

Fixpoint setItem (k v : string) (st : storage) : storage :=
  match st with
  | [] => [(k, v)]
  | (k', v') :: st' =>
      if String.eqb k k' then (k, v) :: st' else (k', v') :: setItem k v st'
  end.

Definition dquote : ascii := "034"%char.
Definition squote : ascii := "039"%char.
Definition backslash : ascii := "092"%char.

Definition code (c : ascii) : N := N_of_ascii c.
Definition one (c : ascii) : string := String c EmptyString.
Definition chr (n : N) : string := one (ascii_of_N n).

Definition hex_char (n : N) : ascii :=
  if (n <? 10)%N then ascii_of_N (48 + n) else ascii_of_N (87 + n).

Definition hex_value (c : ascii) : option N :=
  let n := code c in
  if ((48 <=? n) && (n <=? 57))%N then Some (n - 48)%N
  else if ((97 <=? n) && (n <=? 102))%N then Some (n - 87)%N
  else if ((65 <=? n) && (n <=? 70))%N then Some (n - 55)%N
  else None.

(** QuoteJSONString, one character at a time. *)
Definition quote_char (c : ascii) : string :=
  let n := code c in
  if (n =? 8)%N then "\b"
  else if (n =? 9)%N then "\t"
  else if (n =? 10)%N then "\n"
  else if (n =? 12)%N then "\f"
  else if (n =? 13)%N then "\r"
  else if (n =? 34)%N then String backslash (one dquote)
  else if (n =? 92)%N then "\\"
  else if (n <? 32)%N then
    "\u00" ++ one (hex_char (n / 16)) ++ one (hex_char (n mod 16))
  else one c.

Fixpoint quote_chars (s : string) : string :=
  match s with
  | EmptyString => EmptyString
  | String c s' => quote_char c ++ quote_chars s'
  end.

Definition quote (s : string) : string :=
  one dquote ++ quote_chars s ++ one dquote.

Fixpoint stringify_members (st : storage) : string :=
  match st with
  | [] => EmptyString
  | [(k, v)] => quote k ++ ":" ++ quote v
  | (k, v) :: st' => quote k ++ ":" ++ quote v ++ "," ++ stringify_members st'
  end.

(** [JSON.stringify(sessionStorage)] *)
Definition JSON_stringify (st : storage) : string :=
  "{" ++ stringify_members st ++ "}".

Definition push {B} (c : ascii) (r : js (string * B)) : js (string * B) :=
  match r with
  | Value (v, rest) => Value (String c v, rest)
  | SyntaxError => SyntaxError
  | Unmodelled => Unmodelled
  end.

(** The escapes that stand for one fixed character in a string literal. *)
Definition single_escape (e : ascii) : option ascii :=
  let n := code e in
  if (n =? 39)%N then Some squote
  else if (n =? 34)%N then Some dquote
  else if (n =? 92)%N then Some backslash
  else if (n =? 98)%N then Some "008"%char
  else if (n =? 102)%N then Some "012"%char
  else if (n =? 110)%N then Some "010"%char
  else if (n =? 114)%N then Some "013"%char
  else if (n =? 116)%N then Some "009"%char
  else if (n =? 118)%N then Some "011"%char
  else None.

Definition code_point (digits : list ascii) : option N :=
  fold_left (fun acc h =>
               match acc, hex_value h with
               | Some a, Some d => Some (16 * a + d)%N
               | _, _ => None
               end) digits (Some 0%N).

(** The characters of a single-quoted string literal, read from just
    after the opening quote: the value of the literal and the source text
    that follows its closing quote. *)
Fixpoint string_literal (s : string) : js (string * string) :=
  match s with
  | EmptyString => SyntaxError
  | String c s1 =>
      let n := code c in
      if (n =? 39)%N then Value (EmptyString, s1)
      else if ((n =? 10) || (n =? 13))%N then SyntaxError
      else if (n =? 92)%N then
        match s1 with
        | EmptyString => SyntaxError
        | String e s2 =>
            let m := code e in
            match single_escape e with
            | Some ch => push ch (string_literal s2)
            | None =>
                if (m =? 120)%N then
                  match s2 with
                  | String h1 (String h2 s4) =>
                      match code_point [h1; h2] with
                      | Some v => push (ascii_of_N v) (string_literal s4)
                      | None => SyntaxError
                      end
                  | _ => SyntaxError
                  end
                else if (m =? 117)%N then
                  match s2 with
                  | String h1 (String h2 (String h3 (String h4 s6))) =>
                      if (code h1 =? 123)%N then Unmodelled
                      else
                        match code_point [h1; h2; h3; h4] with
                        | Some v =>
                            if (v <? 256)%N
                            then push (ascii_of_N v) (string_literal s6)
                            else Unmodelled
                        | None => SyntaxError
                        end
                  | String h1 _ =>
                      if (code h1 =? 123)%N then Unmodelled else SyntaxError
                  | EmptyString => SyntaxError
                  end
                else if ((48 <=? m) && (m <=? 57) || (m =? 10) || (m =? 13))%N
                then Unmodelled
                else push e (string_literal s2)
            end
        end
      else push c (string_literal s1)
  end.

Definition is_json_space (c : ascii) : bool :=
  let n := code c in ((n =? 32) || (n =? 9) || (n =? 10) || (n =? 13))%N.

Fixpoint skip_space (s : string) : string :=
  match s with
  | EmptyString => EmptyString
  | String c s' => if is_json_space c then skip_space s' else s
  end.

(** The escapes of a JSON string that stand for one fixed character. *)
Definition json_escape (e : ascii) : option ascii :=
  let n := code e in
  if (n =? 34)%N then Some dquote
  else if (n =? 92)%N then Some backslash
  else if (n =? 47)%N then Some "/"%char
  else if (n =? 98)%N then Some "008"%char
  else if (n =? 102)%N then Some "012"%char
  else if (n =? 110)%N then Some "010"%char
  else if (n =? 114)%N then Some "013"%char
  else if (n =? 116)%N then Some "009"%char
  else None.

(** A JSON string, read from just after its opening quote. *)
Fixpoint json_string (s : string) : js (string * string) :=
  match s with
  | EmptyString => SyntaxError
  | String c s1 =>
      let n := code c in
      if (n =? 34)%N then Value (EmptyString, s1)
      else if (n <? 32)%N then SyntaxError
      else if (n =? 92)%N then
        match s1 with
        | EmptyString => SyntaxError
        | String e s2 =>
            match json_escape e with
            | Some ch => push ch (json_string s2)
            | None =>
                if (code e =? 117)%N then
                  match s2 with
                  | String h1 (String h2 (String h3 (String h4 s6))) =>
                      match code_point [h1; h2; h3; h4] with
                      | Some v =>
                          if (v <? 256)%N
                          then push (ascii_of_N v) (json_string s6)
                          else Unmodelled
                      | None => SyntaxError
                      end
                  | _ => SyntaxError
                  end
                else SyntaxError
            end
        end
      else push c (json_string s1)
  end.

Definition starts_with (c : ascii) (s : string) : option string :=
  match s with
  | String c' s' => if Ascii.eqb c c' then Some s' else None
  | EmptyString => None
  end.

(** The members of a JSON object whose values are strings, read from the
    opening quote of a member name.  A member costs at least five
    characters, so [length text] rounds are enough. *)
Fixpoint members (rounds : nat) (s : string) (acc : list (string * string))
  : js (list (string * string)) :=
  match rounds with
  | O => Unmodelled
  | S rounds' =>
      match starts_with dquote s with
      | None => SyntaxError
      | Some s1 =>
          match json_string s1 with
          | Value (k, r1) =>
              match starts_with ":"%char (skip_space r1) with
              | None => SyntaxError
              | Some r2 =>
                  match starts_with dquote (skip_space r2) with
                  | None => Unmodelled
                  | Some r3 =>
                      match json_string r3 with
                      | Value (v, r4) =>
                          match skip_space r4 with
                          | String d r5 =>
                              if Ascii.eqb d ","%char
                              then members rounds' (skip_space r5) (acc ++ [(k, v)])%list
                              else if Ascii.eqb d "}"%char
                              then match skip_space r5 with
                                   | EmptyString => Value (acc ++ [(k, v)])%list
                                   | _ => SyntaxError
                                   end
                              else SyntaxError
                          | EmptyString => SyntaxError
                          end
                      | SyntaxError => SyntaxError
                      | Unmodelled => Unmodelled
                      end
                  end
              end
          | SyntaxError => SyntaxError
          | Unmodelled => Unmodelled
          end
      end
  end.

(** [JSON.parse(text)] followed by [Object.entries], for a text that is an
    object of strings. *)
Definition JSON_parse (text : string) : js (list (string * string)) :=
  match skip_space text with
  | EmptyString => SyntaxError
  | String c r =>
      if Ascii.eqb c "{"%char then
        match skip_space r with
        | String d r' =>
            if Ascii.eqb d "}"%char then
              match skip_space r' with
              | EmptyString => Value []
              | _ => SyntaxError
              end
            else members (String.length text) (String d r') []
        | EmptyString => SyntaxError
        end
      else Unmodelled
  end.

Fixpoint strip_prefix (p s : string) : option string :=
  match p, s with
  | EmptyString, _ => Some s
  | String a p', String b s' => if Ascii.eqb a b then strip_prefix p' s' else None
  | String _ _, EmptyString => None
  end.

(** The init script of [load_session] (main.py, lines 46-53) up to and
    including the quote that opens its argument. *)
Definition init_script_head : string :=
"(storage => {
            if (window.location.hostname === 'hiring.idenhq.com') {
                const entries = JSON.parse(storage);
                for (const [key, value] of Object.entries(entries)) {
                    window.sessionStorage.setItem(key, value);
                }
            }
        })('".

Definition replay (entries : list (string * string)) (st : storage) : storage :=
  fold_left (fun acc kv => setItem (fst kv) (snd kv) acc) entries st.

(** Running one init script in a page at [hostname].  The script is read
    as the arrow function above applied to one string literal; [JSON.parse]
    throws before the first [setItem], so a [SyntaxError] sets nothing.
    A pasted text that closes the literal before its end leaves program
    text behind the literal; this reader does not parse it and answers
    [Unmodelled], where a browser would as a rule reject the whole script
    and restore nothing. *)
Definition run_init_script (src hostname : string) (st : storage) : js storage :=
  match strip_prefix init_script_head src with
  | None => Unmodelled
  | Some body =>
      match string_literal body with
      | Value (arg, rest) =>
          if String.eqb rest ")" then
            if String.eqb hostname "hiring.idenhq.com" then
              match JSON_parse arg with
              | Value entries => Value (replay entries st)
              | SyntaxError => SyntaxError
              | Unmodelled => Unmodelled
              end
            else Value st
          else Unmodelled
      | SyntaxError => SyntaxError
      | Unmodelled => Unmodelled
      end
  end.

(** The sessionStorage of a freshly opened page at [hostname] once every
    registered init script has run; a script that throws leaves the
    storage as it was.  [None] when a script is outside the fragment. *)
Fixpoint run_init_scripts (scripts : list string) (hostname : string)
                          (st : storage) : option storage :=
  match scripts with
  | [] => Some st
  | src :: scripts' =>
      match run_init_script src hostname st with
      | Value st' => run_init_scripts scripts' hostname st'
      | SyntaxError => run_init_scripts scripts' hostname st
      | Unmodelled => None
      end
  end.

End Js.

(** ** Data model *)

(** A cookie is passed through unmodified; the store tells two cookies
    apart by name, domain and path. *)
Record Cookie : Type := {
  cookie_name : string;
  cookie_value : string;
  cookie_domain : string;
  cookie_path : string
}.

(** [context.storage_state()] *)
Record StorageState : Type := {
  cookies : list Cookie;
  origins : list string
}.

(** The document kept in session.json. *)
Record SessionData : Type := {
  session_storage : string;
  storage_state : StorageState
}.

(** What the locators of one row yield: the text of [div.h-12] and the
    texts of the [div.p-3>div>div] elements, in document order. *)
Record RawItem : Type := {
  title : string;
  inner_elements : list string
}.

(** One entry of [all_products]. *)
Record Product : Type := {
  Product_Name : string;
  ID : string;
  Shade : string;
  Details : string;
  Guarantee : string
}.

(** A file on disk: [Partial] once it has been opened for writing and
    until the dump has completed. *)
Inductive file (A : Type) : Type :=
| Partial
| Whole (content : A).
Arguments Partial {A}.
Arguments Whole {A} content.

Inductive stage : Type := Login | Navigation | Extraction | Saving.

(** Exceptions, all of them subclasses of [Exception].  The program
    raises [RuntimeError] with two kinds of message: the fixed timeout
    message of a stage ([RuntimeTimeout]) and the message of a stage that
    quotes the exception it wraps ([RuntimeError]). *)
Inductive exn : Type :=
| PlaywrightTimeoutError
| PlaywrightError
| OSError
| ValueError
| IndexError
| UnboundLocalError
| RuntimeTimeout (s : stage)
| RuntimeError (s : stage) (e : exn).

(** The lines the program prints. *)
Inductive message : Type :=
| SessionSaved
| ErrorSavingSession (e : exn)
| NoSavedSession
| LoadingSession
| SessionLoaded
| ErrorLoadingSession (e : exn)
| CheckingLogin
| LoggingIn
| LoginSuccessful
| AlreadyLoggedIn
| LoginTimeout
| ErrorDuringLogin (e : exn)
| NavigatingToTable
| ReachedTable
| TimeoutNavigating
| ErrorDuringNavigation (e : exn)
| ExtractingProducts
| Extracted (n : Z)
| TimeoutExtracting
| ErrorExtracting (e : exn)
| DataSaved
| ErrorSavingData (e : exn)
| UnexpectedErrorInMain (e : exn).

(** The requests the program makes to Playwright and to the file system. *)
Inductive call : Type :=
| StartPlaywright
| StopPlaywright
| Launch
| NewContext
| NewPage
| SetDefaultTimeout (ms : Z)
| WaitForLoadState (state : string)
| OpenRead (path : string)
| JsonLoad (path : string)
| AddCookies (cs : list Cookie)
| AddInitScript (src : string)
| Goto (url : string) (timeout : Z)
| IsVisible (selector : string)
| Fill (selector value : string)
| Click (selector : string)
| WaitForSelector (selector : string) (timeout : Z)
| TextContent (selector : string)
| AllMatching (selector : string)
| Hover (row : nat)
| MouseWheel (dx dy : Z)
| WaitForGrowth (count : Z) (timeout : Z)
| GetStorageState
| Evaluate (expression : string)
| OpenWrite (path : string)
| JsonDump (path : string)
| CloseBrowser.

Inductive event : Type :=
| Called (c : call)
| Printed (m : message).

(** The environment.  Every reply may depend on the whole history. *)
Record World : Type := {
  USERNAME : option string;
  PASSWORD : option string;
  raises : list event -> call -> option exn;
  sign_in_visible : list event -> bool;
  summary_text : list event -> string;
  rows_now : list event -> list RawItem;
  live_storage_state : list event -> StorageState;
  live_session_storage : list event -> Js.storage
}.

(** What a run can change: the history, the two files, and the browser
    context (cookie store and registered init scripts). *)
Record State : Type := {
  trace : list event;
  session_file : option (file SessionData);
  output_file : option (file (list Product));
  context_cookies : list Cookie;
  context_init_scripts : list string
}.

Definition SESSION_FILE : string := "session.json".
Definition OUTPUT_FILE : string := "product_data.json".
Definition LOGIN_URL : string := "https://hiring.idenhq.com/".

(** ** Results and the monad of the program *)

(** [OutOfFuel] is not a Python outcome: it marks a run whose growth loop
    has not finished within the given number of iterations.  No handler
    catches it and no [finally] clause runs after it. *)
Inductive res (A : Type) : Type :=
| Ret (a : A)
| Exc (e : exn)
| OutOfFuel.
Arguments Ret {A} a.
Arguments Exc {A} e.
Arguments OutOfFuel {A}.

Definition M (A : Type) : Type := State -> res A * State.

Definition ret {A} (a : A) : M A := fun st => (Ret a, st).
Definition raise {A} (e : exn) : M A := fun st => (Exc e, st).
Definition out_of_fuel {A} : M A := fun st => (OutOfFuel, st).

Definition bind {A B} (m : M A) (k : A -> M B) : M B :=
  fun st =>
    match m st with
    | (Ret a, st') => k a st'
    | (Exc e, st') => (Exc e, st')
    | (OutOfFuel, st') => (OutOfFuel, st')
    end.

Notation "x <- m ;; k" := (bind m (fun x => k))
  (at level 61, m at next level, right associativity).
Notation "m ;; k" := (bind m (fun _ => k))
  (at level 61, right associativity).

Definition lift {A} (r : res A) : M A := fun st => (r, st).

(** [try: body except Exception as e: handler e] *)
Definition try_except {A} (body : M A) (handler : exn -> M A) : M A :=
  fun st =>
    match body st with
    | (Exc e, st') => handler e st'
    | other => other
    end.

(** [try: body finally: final] *)
Definition try_finally {A} (body : M A) (final : M unit) : M A :=
  fun st =>
    match body st with
    | (OutOfFuel, st') => (OutOfFuel, st')
    | (r, st') =>
        match final st' with
        | (Ret _, st'') => (r, st'')
        | (Exc e, st'') => (Exc e, st'')
        | (OutOfFuel, st'') => (OutOfFuel, st'')
        end
    end.

Definition record_event (e : event) (st : State) : State :=
  {| trace := trace st ++ [e];
     session_file := session_file st;
     output_file := output_file st;
     context_cookies := context_cookies st;
     context_init_scripts := context_init_scripts st |}.

Definition print (m : message) : M unit :=
  fun st => (Ret tt, record_event (Printed m) st).

Definition set_session_file (f : file SessionData) : M unit :=
  fun st => (Ret tt,
    {| trace := trace st;
       session_file := Some f;
       output_file := output_file st;
       context_cookies := context_cookies st;
       context_init_scripts := context_init_scripts st |}).

Definition set_output_file (f : file (list Product)) : M unit :=
  fun st => (Ret tt,
    {| trace := trace st;
       session_file := session_file st;
       output_file := Some f;
       context_cookies := context_cookies st;
       context_init_scripts := context_init_scripts st |}).

Definition same_cookie (a b : Cookie) : bool :=
  String.eqb (cookie_name a) (cookie_name b)
  && String.eqb (cookie_domain a) (cookie_domain b)
  && String.eqb (cookie_path a) (cookie_path b).

Definition set_cookie (jar : list Cookie) (c : Cookie) : list Cookie :=
  filter (fun d => negb (same_cookie c d)) jar ++ [c].

(** The effect of a successful [context.add_cookies(cs)] on the store. *)
Definition store_cookies (cs : list Cookie) : M unit :=
  fun st => (Ret tt,
    {| trace := trace st;
       session_file := session_file st;
       output_file := output_file st;
       context_cookies := fold_left set_cookie cs (context_cookies st);
       context_init_scripts := context_init_scripts st |}).

(** The effect of a successful [context.add_init_script(src)]. *)
Definition register_init_script (src : string) : M unit :=
  fun st => (Ret tt,
    {| trace := trace st;
       session_file := session_file st;
       output_file := output_file st;
       context_cookies := context_cookies st;
       context_init_scripts := context_init_scripts st ++ [src] |}).

(** [l[i]] for [i >= 0] and [l[-1]]. *)
Definition subscript {A} (l : list A) (i : nat) : res A :=
  match nth_error l i with
  | Some a => Ret a
  | None => Exc IndexError
  end.

Definition last_index {A} (l : list A) : res A :=
  match List.rev l with
  | a :: _ => Ret a
  | [] => Exc IndexError
  end.

(** Python truthiness of [os.getenv(...)]: [None] and the empty string
    are false. *)
Definition truthy (v : option string) : bool :=
  match v with
  | None => false
  | Some EmptyString => false
  | Some _ => true
  end.

Definition text_of (v : option string) : string :=
  match v with Some s => s | None => EmptyString end.

(** ** Record parsing (main.py, lines 136-151) *)

(** [text.split(sep)[1].strip()] *)
Definition labeled_text (sep text : string) : res string :=
  match subscript (Py.split sep text) 1 with
  | Ret piece => Ret (Py.strip piece)
  | Exc e => Exc e
  | OutOfFuel => OutOfFuel
  end.

(** [(...).split(sep)[1].strip() if len(inner_elements) > i else ""] *)
Definition field (inner : list string) (i : nat) (sep : string) : res string :=
  if Z.of_nat i <? Py.len inner then
    match subscript inner i with
    | Ret text => labeled_text sep text
    | Exc e => Exc e
    | OutOfFuel => OutOfFuel
    end
  else Ret EmptyString.

(** The body of [for item in rows]. *)
Definition parse_item (item : RawItem) : res Product :=
  let inner := inner_elements item in
  let name := Py.strip (title item) in
  match field inner 0 ":" with
  | Ret id_text =>
    match field inner 1 "Shade" with
    | Ret shade_text =>
      match field inner 2 "Details" with
      | Ret details_text =>
        match field inner 3 "Guarantee" with
        | Ret guarantee_text =>
            Ret {| Product_Name := name;
                   ID := id_text;
                   Shade := shade_text;
                   Details := details_text;
                   Guarantee := guarantee_text |}
        | Exc e => Exc e
        | OutOfFuel => OutOfFuel
        end
      | Exc e => Exc e
      | OutOfFuel => OutOfFuel
      end
    | Exc e => Exc e
    | OutOfFuel => OutOfFuel
    end
  | Exc e => Exc e
  | OutOfFuel => OutOfFuel
  end.

(** The whole [for] loop: the records in order, or the first exception. *)
Fixpoint parse_items (rows : list RawItem) : res (list Product) :=
  match rows with
  | [] => Ret []
  | item :: rows' =>
      match parse_item item with
      | Ret p =>
          match parse_items rows' with
          | Ret ps => Ret (p :: ps)
          | Exc e => Exc e
          | OutOfFuel => OutOfFuel
          end
      | Exc e => Exc e
      | OutOfFuel => OutOfFuel
      end
  end.

(** [int(text.split("of")[1].split("products")[0].strip())] (line 115) *)
Definition parse_total (text : string) : res Z :=
  match subscript (Py.split "of" text) 1 with
  | Ret after_of =>
      match subscript (Py.split "products" after_of) 0 with
      | Ret number =>
          match Py.int (Py.strip number) with
          | Some n => Ret n
          | None => Exc ValueError
          end
      | Exc e => Exc e
      | OutOfFuel => OutOfFuel
      end
  | Exc e => Exc e
  | OutOfFuel => OutOfFuel
  end.

(** ** The program *)
Section Program.

Variable w : World.

(** One awaited request: it is recorded, then it raises or returns. *)
Definition request (c : call) : M unit :=
  fun st =>
    match raises w (trace st) c with
    | Some e => (Exc e, record_event (Called c) st)
    | None => (Ret tt, record_event (Called c) st)
    end.

(** A request that returns a value read off the world. *)
Definition query {A} (c : call) (reply : list event -> A) : M A :=
  fun st =>
    match raises w (trace st) c with
    | Some e => (Exc e, record_event (Called c) st)
    | None => (Ret (reply (trace st)), record_event (Called c) st)
    end.

(** The pair of handlers shared by the three page-driving functions:
    [except PlaywrightTimeoutError] and [except Exception as e]. *)
Definition wrap_errors {A} (s : stage) (on_timeout : message)
           (on_error : exn -> message) (body : M A) : M A :=
  try_except body
    (fun e =>
       match e with
       | PlaywrightTimeoutError =>
           print on_timeout ;; raise (RuntimeTimeout s)
       | _ => print (on_error e) ;; raise (RuntimeError s e)
       end).

(** main.py, lines 17-30 *)
Definition save_session : M unit :=
  try_except
    (state <- query GetStorageState (live_storage_state w) ;;
     text <- query (Evaluate "JSON.stringify(sessionStorage)")
                   (fun tr => Js.JSON_stringify (live_session_storage w tr)) ;;
     let session_data :=
       {| session_storage := text; storage_state := state |} in
     request (OpenWrite SESSION_FILE) ;;
     set_session_file Partial ;;
     request (JsonDump SESSION_FILE) ;;
     set_session_file (Whole session_data) ;;
     print SessionSaved)
    (fun e => print (ErrorSavingSession e)).

(** The f-string of lines 46-53. *)
Definition init_script (session_storage : string) : string :=
  Js.init_script_head ++ session_storage ++ "')".

(** [json.load(f)]: a file that was not written completely is not a JSON
    document ([JSONDecodeError] is a [ValueError]). *)
Definition json_load (f : file SessionData) : M SessionData :=
  request (JsonLoad SESSION_FILE) ;;
  match f with
  | Whole d => ret d
  | Partial => raise ValueError
  end.

(** main.py, lines 32-57 *)
Definition load_session : M unit :=
  fun st =>
    match session_file st with
    | None => print NoSavedSession st
    | Some f =>
        try_except
          (print LoadingSession ;;
           request (OpenRead SESSION_FILE) ;;
           session_data <- json_load f ;;
           let cs := cookies (storage_state session_data) in
           request (AddCookies cs) ;;
           store_cookies cs ;;
           let src := init_script (session_storage session_data) in
           request (AddInitScript src) ;;
           register_init_script src ;;
           print SessionLoaded)
          (fun e => print (ErrorLoadingSession e)) st
    end.

(** main.py, lines 60-82 *)
Definition login_if_needed : M unit :=
  if negb (truthy (USERNAME w)) || negb (truthy (PASSWORD w))
  then raise ValueError
  else
    wrap_errors Login LoginTimeout ErrorDuringLogin
      (print CheckingLogin ;;
       request (Goto LOGIN_URL 30000) ;;
       visible <- query (IsVisible "h3:text('Sign in')") (sign_in_visible w) ;;
       if (visible : bool) then
         print LoggingIn ;;
         request (Fill "input#email" (text_of (USERNAME w))) ;;
         request (Fill "input#password" (text_of (PASSWORD w))) ;;
         request (Click "button[type='submit']") ;;
         request (WaitForSelector "text='Sign out'" 10000) ;;
         print LoginSuccessful
       else print AlreadyLoggedIn).

(** main.py, lines 85-104 *)
Definition navigate_to_product_table : M unit :=
  wrap_errors Navigation TimeoutNavigating ErrorDuringNavigation
    (print NavigatingToTable ;;
     request (WaitForSelector "//button[contains(text(),'Launch Challenge')]" 10000) ;;
     request (Click "//button[contains(text(),'Launch Challenge')]") ;;
     request (Click "//button[contains(text(),'Dashboard')]") ;;
     request (Click "//h3[contains(text(),'Inventory')]") ;;
     request (Click "//h3[contains(text(),'Products')]") ;;
     request (Click "//h3[contains(text(),'Full Catalog')]") ;;
     request (WaitForSelector "//h3[contains(text(),'Product Inventory')]" 15000) ;;
     print ReachedTable).

(** The growth trigger of lines 129-134: hover the last row, scroll, wait
    for more than [count] rows. *)
Definition trigger_growth (rows : list RawItem) (count : Z) : M unit :=
  _ <- lift (last_index rows) ;;
  request (Hover (List.length rows - 1)) ;;
  request (MouseWheel 0 200) ;;
  request (WaitForGrowth count 5000).

(** The [while] loop of lines 119-134.  The local [rows] is unbound
    ([None]) until the first pass assigns it. *)
Fixpoint collect (fuel : nat) (total_count prev_count count : Z)
                 (rows : option (list RawItem)) : M (option (list RawItem)) :=
  if count <? total_count then
    match fuel with
    | O => out_of_fuel
    | S fuel' =>
        rows' <- query (AllMatching "div.grid>div.rounded-lg") (rows_now w) ;;
        let count' := Py.len rows' in
        if count' =? prev_count then ret (Some rows')
        else
          (if count' <? total_count then trigger_growth rows' count'
           else ret tt) ;;
          collect fuel' total_count count' count' (Some rows')
    end
  else ret rows.

(** Reading a local variable. *)
Definition local {A} (v : option A) : M A :=
  match v with
  | Some a => ret a
  | None => raise UnboundLocalError
  end.

(** main.py, lines 107-160 *)
Definition extract_products (fuel : nat) : M (list Product) :=
  wrap_errors Extraction TimeoutExtracting ErrorExtracting
    (request (WaitForSelector "//h3[contains(text(),'Product Inventory')]" 10000) ;;
     print ExtractingProducts ;;
     total_table_count_text <-
       query (TextContent "//div[contains(text(),'Showing ')]") (summary_text w) ;;
     total_count <- lift (parse_total total_table_count_text) ;;
     rows <- collect fuel total_count (-1) 0 None ;;
     rows <- local rows ;;
     all_products <- lift (parse_items rows) ;;
     print (Extracted (Py.len all_products)) ;;
     ret all_products).

(** main.py, lines 163-171 *)
Definition save_to_json (data : list Product) : M unit :=
  try_except
    (request (OpenWrite OUTPUT_FILE) ;;
     set_output_file Partial ;;
     request (JsonDump OUTPUT_FILE) ;;
     set_output_file (Whole data) ;;
     print DataSaved)
    (fun e => print (ErrorSavingData e) ;; raise (RuntimeError Saving e)).

(** Lines 179-189: the steps that come before the output is written. *)
Definition steps_before_write (fuel : nat) : M (list Product) :=
  request NewContext ;;
  load_session ;;
  request NewPage ;;
  request (SetDefaultTimeout 30000) ;;
  request (WaitForLoadState "networkidle") ;;
  login_if_needed ;;
  navigate_to_product_table ;;
  extract_products fuel.

(** Lines 179-192: the body of the [try] once [browser] is bound. *)
Definition pipeline (fuel : nat) : M unit :=
  products <- steps_before_write fuel ;;
  save_to_json products ;;
  save_session.

(** Lines 177-197.  The name [browser] is bound by the first statement of
    the [try]; when the launch raises, the handler prints and the
    [finally] clause then reads an unbound name. *)
Definition launched (fuel : nat) : M unit :=
  fun st =>
    match request Launch st with
    | (Ret _, st1) =>
        try_finally
          (try_except (pipeline fuel)
             (fun e => print (UnexpectedErrorInMain e)))
          (request CloseBrowser) st1
    | (Exc e, st1) =>
        (print (UnexpectedErrorInMain e) ;; raise UnboundLocalError) st1
    | (OutOfFuel, st1) => (OutOfFuel, st1)
    end.

(** main.py, lines 174-197: [async with async_playwright() as p]. *)
Definition main (fuel : nat) : M unit :=
  request StartPlaywright ;;
  try_finally (launched fuel) (request StopPlaywright).

(** [asyncio.run(main())] at the bottom of the module: the exit status of
    the interpreter, [None] for a run that has not ended. *)
Definition exit_status (r : res unit) : option Z :=
  match r with
  | Ret _ => Some 0
  | Exc _ => Some 1
  | OutOfFuel => None
  end.

End Program.

(** The positions of the labeled fragments and the separator each is
    split at (lines 140-143). *)
Definition labeled_positions : list (nat * string) :=
  [(0%nat, ":"); (1%nat, "Shade"); (2%nat, "Details"); (3%nat, "Guarantee")].

(** The four labeled fields of a record, in the order of the fragments. *)
Definition labeled_fields (p : Product) : list string :=
  [ID p; Shade p; Details p; Guarantee p].

(** ** The specification's wording, for comparison *)
Module Spec.

(** Section 4.5 as it reads: the label prefix is stripped up to the
    delimiter and the remainder is trimmed; a fragment without the
    delimiter is a fatal parse error. *)
Definition strip_label_prefix (sep text : string) : res string :=
  match Py.cut sep text with
  | Some (_, remainder) => Ret (Py.strip remainder)
  | None => Exc IndexError
  end.

End Spec.

(** ** Reading a history *)

Definition count (p : event -> bool) (tr : list event) : nat :=
  List.length (filter p tr).

(** Hover, scroll and growth-wait: the three requests of a growth
    trigger. *)
Definition is_growth_trigger (e : event) : bool :=
  match e with
  | Called (Hover _) => true
  | Called (MouseWheel _ _) => true
  | Called (WaitForGrowth _ _) => true
  | _ => false
  end.

Definition is_close (e : event) : bool :=
  match e with
  | Called CloseBrowser => true
  | _ => false
  end.

Definition is_stop (e : event) : bool :=
  match e with
  | Called StopPlaywright => true
  | _ => false
  end.

Definition is_output_write (e : event) : bool :=
  match e with
  | Called (OpenWrite path) => String.eqb path OUTPUT_FILE
  | Called (JsonDump path) => String.eqb path OUTPUT_FILE
  | _ => false
  end.

(** The state in which [main] runs its [try] block: Playwright has been
    started and the browser launched. *)
Definition after_launch (st : State) : State :=
  record_event (Called Launch) (record_event (Called StartPlaywright) st).

(** The browser itself answers: starting, launching, closing and stopping
    never raise. *)
Definition browser_works (w : World) : Prop :=
  forall tr c,
    In c [StartPlaywright; Launch; CloseBrowser; StopPlaywright] ->
    raises w tr c = None.

(** The history at which [extract_products], started in [st], asks for
    the summary text: the heading has been awaited and the progress line
    printed. *)
Definition summary_history (st : State) : list event :=
  trace
    (record_event (Printed ExtractingProducts)
       (record_event
          (Called (WaitForSelector "//h3[contains(text(),'Product Inventory')]" 10000))
          st)).

(** [respects R m]: whatever the start, the state [m] ends in is related
    to it by [R]. *)
Definition respects (R : State -> State -> Prop) {A} (m : M A) : Prop :=
  forall st, R st (snd (m st)).

(** Events other than closing the browser and stopping Playwright. *)
Definition harmless (e : event) : bool := negb (is_close e || is_stop e).

(** [st'] extends the history of [st] by harmless events only. *)
Definition adds_harmless (st st' : State) : Prop :=
  exists evs, trace st' = (trace st ++ evs)%list /\ forallb harmless evs = true.

Definition same_output (st st' : State) : Prop :=
  output_file st' = output_file st.

(** ** Sample inputs *)

Definition item_two_colons : RawItem :=
  {| title := " Velvet Matte "; inner_elements := ["ID: 48:21"] |}.

Definition item_plain_id : RawItem :=
  {| title := " Velvet Matte "; inner_elements := ["ID: 48213"] |}.

Definition item_two_fragments : RawItem :=
  {| title := " Velvet Matte ";
     inner_elements := ["ID: 48213"; "Shade Ruby"] |}.

Definition item_without_colon : RawItem :=
  {| title := " Velvet Matte "; inner_elements := ["ID 48213"] |}.

Definition empty_state : State :=
  {| trace := []; session_file := None; output_file := None;
     context_cookies := []; context_init_scripts := [] |}.

Definition sample_cookie : Cookie :=
  {| cookie_name := "sid"; cookie_value := "f3a9";
     cookie_domain := "hiring.idenhq.com"; cookie_path := "/" |}.

(** A world in which only [fails] answer with an exception, the summary
    reads [summary], and the page always shows [n] rows. *)
Definition sample_world (user : option string) (fails : call -> option exn)
           (summary : string) (n : nat) (client : Js.storage) : World :=
  {| USERNAME := user;
     PASSWORD := Some "secret";
     raises := fun _ c => fails c;
     sign_in_visible := fun _ => true;
     summary_text := fun _ => summary;
     rows_now := fun _ => repeat item_plain_id n;
     live_storage_state := fun _ => {| cookies := [sample_cookie]; origins := [] |};
     live_session_storage := fun _ => client |}.

Definition nothing_fails (c : call) : option exn := None.

Definition launch_fails (c : call) : option exn :=
  match c with
  | Launch => Some PlaywrightError
  | _ => None
  end.

(** The disk fills up while the products are written. *)
Definition dump_fails (c : call) : option exn :=
  match c with
  | JsonDump path =>
      if String.eqb path OUTPUT_FILE then Some OSError else None
  | _ => None
  end.

Definition world_dump_fails : World :=
  sample_world (Some "user@example.com") dump_fails
               "Showing 1-3 of 3 products" 3 [].

Definition world_zero_total : World :=
  sample_world (Some "user@example.com") nothing_fails
               "Showing 0 of 0 products" 0 [].

Definition world_stalled : World :=
  sample_world (Some "user@example.com") nothing_fails
               "Showing 1-3 of 10 products" 3 [].

Definition world_complete : World :=
  sample_world (Some "user@example.com") nothing_fails
               "Showing 1-24 of 24 products" 24 [].


Definition world_no_credentials : World :=
  sample_world None nothing_fails "Showing 1-3 of 3 products" 3 [].

Definition world_launch_fails : World :=
  sample_world (Some "user@example.com") launch_fails
               "Showing 1-3 of 3 products" 3 [].

(** ** Saving and restoring a session *)

(** What a page of the context presents: the cookie jar, and the
    sessionStorage once the init scripts have run ([None] when a script is
    outside the modelled fragment of JavaScript). *)
Record View : Type := {
  cookie_jar : list Cookie;
  client_storage : option Js.storage
}.

(** The view of a page opened on the site in the context of [st]. *)
Definition view_on_site (st : State) : View :=
  {| cookie_jar := context_cookies st;
     client_storage :=
       Js.run_init_scripts (context_init_scripts st) "hiring.idenhq.com" [] |}.

(** The next run: the files are those the last run left; the browser
    context is new. *)
Definition next_run (st : State) : State :=
  {| trace := [];
     session_file := session_file st;
     output_file := output_file st;
     context_cookies := [];
     context_init_scripts := [] |}.

(** [save_session] in a run whose live view holds the given cookies and
    sessionStorage, then [load_session] in the next run, then a page
    opened on the site. *)
Definition restore_after_save (w : World) : View :=
  view_on_site
    (snd (load_session w (next_run (snd (save_session w empty_state))))).

(** A path with a backslash in sessionStorage. *)
Definition storage_with_backslash : Js.storage := [("path", "C:\temp")].

(** A JSON document in sessionStorage: [{"id":7}] under the key [user]. *)
Definition storage_with_quotes : Js.storage :=
  [("user", "{" ++ Js.one Js.dquote ++ "id" ++ Js.one Js.dquote ++ ":7}")].

Definition storage_plain : Js.storage := [("theme", "dark"); ("tab", "3")].

Definition world_with_storage (client : Js.storage) : World :=
  sample_world (Some "user@example.com") nothing_fails
               "Showing 1-3 of 3 products" 3 client.

(** ** Further readings of a history and of a world *)

(** Filling a field and clicking: what the login form needs. *)
Definition is_form_action (e : event) : bool :=
  match e with
  | Called (Fill _ _) => true
  | Called (Click _) => true
  | _ => false
  end.

(** The requests of a history, in order, without the printed lines. *)
Fixpoint requests_of (tr : list event) : list call :=
  match tr with
  | [] => []
  | Called c :: tr' => c :: requests_of tr'
  | Printed _ :: tr' => requests_of tr'
  end.

(** Opening and dumping the output file never raise. *)
Definition output_writable (w : World) : Prop :=
  forall tr,
    raises w tr (OpenWrite OUTPUT_FILE) = None /\
    raises w tr (JsonDump OUTPUT_FILE) = None.

(** The page only grows: a later read never shows fewer rows than an
    earlier one. *)
Definition grows_only (w : World) : Prop :=
  forall tr later,
    Py.len (rows_now w tr) <= Py.len (rows_now w (tr ++ later)%list).

(** The seven requests of [navigate_to_product_table], in source order
    (lines 90-97). *)
Definition navigation_requests : list call :=
  [WaitForSelector "//button[contains(text(),'Launch Challenge')]" 10000;
   Click "//button[contains(text(),'Launch Challenge')]";
   Click "//button[contains(text(),'Dashboard')]";
   Click "//h3[contains(text(),'Inventory')]";
   Click "//h3[contains(text(),'Products')]";
   Click "//h3[contains(text(),'Full Catalog')]";
   WaitForSelector "//h3[contains(text(),'Product Inventory')]" 15000].

(** The history at which [login_if_needed], started in [st], asks
    whether the sign-in heading is visible. *)
Definition login_history (st : State) : list event :=
  trace
    (record_event (Called (Goto LOGIN_URL 30000))
       (record_event (Printed CheckingLogin) st)).

(** The snapshot [save_session], started in [st], writes when nothing
    raises. *)
Definition snapshot (w : World) (st : State) : SessionData :=
  {| session_storage :=
       Js.JSON_stringify
         (live_session_storage w (trace st ++ [Called GetStorageState])%list);
     storage_state := live_storage_state w (trace st) |}.

Definition same_session (st st' : State) : Prop :=
  session_file st' = session_file st.

Definition same_context (st st' : State) : Prop :=
  context_cookies st' = context_cookies st /\
  context_init_scripts st' = context_init_scripts st.

(** A world in which the session file cannot be dumped. *)
Definition session_dump_fails (c : call) : option exn :=
  match c with
  | JsonDump path =>
      if String.eqb path SESSION_FILE then Some OSError else None
  | _ => None
  end.

Definition state_with_partial_session : State :=
  {| trace := []; session_file := Some Partial; output_file := None;
     context_cookies := [sample_cookie]; context_init_scripts := [] |}.

Definition world_signed_in : World :=
  {| USERNAME := Some "user@example.com";
     PASSWORD := Some "secret";
     raises := fun _ _ => None;
     sign_in_visible := fun _ => false;
     summary_text := fun _ => "Showing 1-3 of 3 products";
     rows_now := fun _ => repeat item_plain_id 3;
     live_storage_state := fun _ => {| cookies := [sample_cookie]; origins := [] |};
     live_session_storage := fun _ => [] |}.

Definition world_empty_page : World :=
  sample_world (Some "user@example.com") nothing_fails
               "Showing 0 of 12 products" 0 [].

(** A [RuntimeError] raised by the handlers of stage [s]. *)
Definition stage_error (s : stage) (e : exn) : Prop :=
  e = RuntimeTimeout s \/ exists cause, e = RuntimeError s cause.

(** The history at which the first pass of the loop of
    [extract_products], started in [st], reads the rows. *)
Definition first_read_history (st : State) : list event :=
  (summary_history st
   ++ [Called (TextContent "//div[contains(text(),'Showing ')]")])%list.

(** [m] never runs out of fuel: it returns or raises. *)
Definition finishes {A} (m : M A) : Prop :=
  forall st, fst (m st) <> OutOfFuel.

(** The fuel covers whatever total the summary may announce. *)
Definition fuel_covers_total (w : World) (fuel : nat) : Prop :=
  forall tr total,
    parse_total (summary_text w tr) = Ret total ->
    (Z.to_nat (total + 1) <= fuel)%nat.

(** What the two handlers of [wrap_errors] raise for an exception [e] of
    the body: the fixed timeout message, or the message quoting [e]. *)
Definition wrapped (s : stage) (e : exn) : exn :=
  match e with
  | PlaywrightTimeoutError => RuntimeTimeout s
  | _ => RuntimeError s e
  end.


(** The history at which [navigate_to_product_table], started in [st],
    issues its request number [k] (counted from 0): the progress line has
    been printed and the [k] requests before it have been issued. *)
Definition navigation_history (st : State) (k : nat) : list event :=
  (trace st
   ++ Printed NavigatingToTable :: map Called (firstn k navigation_requests))%list.





(** Every character of [s] satisfies [p]. *)
Fixpoint all_chars (p : ascii -> bool) (s : string) : bool :=
  match s with
  | EmptyString => true
  | String c s' => p c && all_chars p s'
  end.

(** A character that [JSON.stringify] writes as it is and that a
    single-quoted literal reads as it is: no control character, no quote
    of either kind, no backslash. *)
Definition plain_char (c : ascii) : bool :=
  let n := Js.code c in
  ((32 <=? n) && negb (n =? 34) && negb (n =? 39) && negb (n =? 92))%N.

Definition plain_storage (st : Js.storage) : Prop :=
  Forall (fun kv => all_chars plain_char (fst kv) = true
                    /\ all_chars plain_char (snd kv) = true) st.

(** No two cookies of the list share name, domain and path. *)
Definition distinct_cookies (cs : list Cookie) : Prop :=
  ForallOrdPairs (fun earlier later => same_cookie later earlier = false) cs.

Definition never_raises (w : World) : Prop :=
  forall tr c, raises w tr c = None.

(** * Facts about the string primitives *)

(** The primitives on the texts the program meets. *)
Example strip_trims_both_ends : Py.strip "  48213 " = "48213".
Proof. reflexivity. Qed.

Example split_on_colon : Py.split ":" "ID: 48:21" = ["ID"; " 48"; "21"].
Proof. reflexivity. Qed.

Example split_summary :
  Py.split "of" "Showing 1-24 of 24 products"
  = ["Showing 1-24 "; " 24 products"].
Proof. reflexivity. Qed.

Example split_adjacent : Py.split "ab" "abab" = [""; ""; ""].
Proof. reflexivity. Qed.

Example split_does_not_overlap : Py.split "aa" "aaa" = [""; "a"].
Proof. reflexivity. Qed.

Example int_with_underscore : Py.int " 1_000 " = Some 1000.
Proof. reflexivity. Qed.

Example int_negative : Py.int "-007" = Some (-7).
Proof. reflexivity. Qed.

Example int_rejects : 
  Py.int "1__0" = None /\ Py.int "" = None /\ Py.int "24_" = None
  /\ Py.int "1-24" = None.
Proof. repeat split; reflexivity. Qed.

Example parse_total_scenario :
  parse_total "Showing 1-24 of 24 products" = Ret 24.
Proof. reflexivity. Qed.

Example stringify_then_parse :
  Js.JSON_parse (Js.JSON_stringify [("k", "v"); ("a b", "c")])
  = Js.Value [("k", "v"); ("a b", "c")].
Proof. reflexivity. Qed.

Lemma append_assoc (a b c : string) : (a ++ b) ++ c = a ++ (b ++ c).
Proof. induction a as [|x a IH]; simpl; [reflexivity | now rewrite IH]. Qed.

Lemma append_empty_r (a : string) : a ++ "" = a.
Proof. induction a as [|x a IH]; simpl; [reflexivity | now rewrite IH]. Qed.

Lemma length_append (a b : string) :
  String.length (a ++ b) = (String.length a + String.length b)%nat.
Proof. induction a as [|x a IH]; simpl; [reflexivity | now rewrite IH]. Qed.

Lemma append_inv_head (a b c : string) : a ++ b = a ++ c -> b = c.
Proof.
  induction a as [|x a IH]; simpl; intros H; [exact H|].
  injection H as H. now apply IH.
Qed.

Lemma prefix_split (sep s : string) :
  prefix sep s = true -> s = sep ++ Py.drop (String.length sep) s.
Proof.
  revert s. induction sep as [|x sep IH]; intros s H.
  - reflexivity.
  - destruct s as [|y s]; simpl in H; [discriminate|].
    destruct (ascii_dec x y) as [->|]; [|discriminate].
    simpl. f_equal. now apply IH.
Qed.

Lemma prefix_append (sep r : string) : prefix sep (sep ++ r) = true.
Proof.
  induction sep as [|x sep IH]; simpl; [now destruct r|].
  destruct (ascii_dec x x) as [_|n]; [exact IH | now elim n].
Qed.

Lemma drop_append (sep r : string) : Py.drop (String.length sep) (sep ++ r) = r.
Proof. induction sep as [|x sep IH]; simpl; [reflexivity | exact IH]. Qed.

Lemma cut_unfold (sep s : string) :
  Py.cut sep s =
  if prefix sep s then Some (EmptyString, Py.drop (String.length sep) s)
  else match s with
       | EmptyString => None
       | String c s' =>
           match Py.cut sep s' with
           | Some (a, r) => Some (String c a, r)
           | None => None
           end
       end.
Proof. destruct s; reflexivity. Qed.

(** What [cut] returns is an occurrence of the separator. *)
Lemma cut_sound (sep s a r : string) :
  Py.cut sep s = Some (a, r) -> s = a ++ sep ++ r.
Proof.
  revert a r. induction s as [|c s IH]; intros a r; rewrite cut_unfold;
    destruct (prefix sep _) eqn:E.
  - intros H. injection H as <- <-. simpl. now apply prefix_split.
  - discriminate.
  - intros H. injection H as <- <-. simpl. now apply prefix_split.
  - destruct (Py.cut sep s) as [[a' r']|]; [|discriminate].
    intros H. injection H as <- <-. simpl. f_equal. now apply IH.
Qed.

(** A text in which the separator occurs is cut somewhere. *)
Lemma cut_occurs (sep a r : string) :
  exists a0 r0, Py.cut sep (a ++ sep ++ r) = Some (a0, r0).
Proof.
  induction a as [|c a [a0 [r0 IH]]].
  - simpl. rewrite cut_unfold, prefix_append. eauto.
  - change (String c a ++ sep ++ r) with (String c (a ++ sep ++ r)).
    rewrite cut_unfold. destruct (prefix sep _); [eauto|].
    rewrite IH. eauto.
Qed.

Lemma cut_shorter (sep s a r : string) :
  sep <> EmptyString -> Py.cut sep s = Some (a, r) ->
  (String.length r < String.length s)%nat.
Proof.
  intros Hsep H. apply cut_sound in H. subst s.
  rewrite !length_append. destruct sep; [now elim Hsep | simpl; lia].
Qed.

Lemma cut_empty (sep : string) :
  sep <> EmptyString -> Py.cut sep EmptyString = None.
Proof. intros H. destruct sep; [now elim H | reflexivity]. Qed.

Lemma split_rounds_enough (sep : string) :
  sep <> EmptyString ->
  forall n m s, (String.length s <= n)%nat -> (String.length s <= m)%nat ->
    Py.split_rounds n sep s = Py.split_rounds m sep s.
Proof.
  intros Hsep. induction n as [|n IH]; intros m s Hn Hm.
  - destruct s; [|simpl in Hn; lia].
    destruct m; cbn [Py.split_rounds]; [reflexivity|]. now rewrite cut_empty.
  - destruct m as [|m].
    + destruct s; [|simpl in Hm; lia]. cbn [Py.split_rounds]. now rewrite cut_empty.
    + cbn [Py.split_rounds]. destruct (Py.cut sep s) as [[a r]|] eqn:E; [|reflexivity].
      apply (cut_shorter _ _ _ _ Hsep) in E. f_equal. apply IH; lia.
Qed.

(** The two equations of [split]. *)
Lemma split_cut (sep s a r : string) :
  sep <> EmptyString -> Py.cut sep s = Some (a, r) ->
  Py.split sep s = a :: Py.split sep r.
Proof.
  intros Hsep H. unfold Py.split.
  pose proof (cut_shorter _ _ _ _ Hsep H) as Hlen.
  destruct (String.length s) as [|n] eqn:En; [lia|].
  cbn [Py.split_rounds]. rewrite H. f_equal. apply split_rounds_enough; [assumption|lia|lia].
Qed.

Lemma split_whole (sep s : string) :
  Py.cut sep s = None -> Py.split sep s = [s].
Proof.
  intros H. unfold Py.split. destruct (String.length s);
    cbn [Py.split_rounds]; [reflexivity | now rewrite H].
Qed.

(** * Record parsing *)

Lemma cut_none_occurrences (sep s : string) :
  Py.occurrences sep s = 0%nat -> Py.cut sep s = None.
Proof.
  induction s as [|c s IH]; rewrite cut_unfold; cbn [Py.occurrences];
    destruct (prefix sep _); intros H; try discriminate; try reflexivity.
  rewrite IH; [reflexivity | exact H].
Qed.

Lemma occurrences_suffix (sep p s : string) :
  (Py.occurrences sep s <= Py.occurrences sep (p ++ s))%nat.
Proof.
  induction p as [|c p IH]; [apply Nat.le_refl|].
  change (String c p ++ s) with (String c (p ++ s)).
  cbn [Py.occurrences]. lia.
Qed.

Lemma occurrences_here (sep a r : string) :
  (1 <= Py.occurrences sep (a ++ sep ++ r))%nat.
Proof.
  eapply Nat.le_trans; [|apply occurrences_suffix].
  destruct (sep ++ r) eqn:E; cbn [Py.occurrences];
    rewrite <- E, prefix_append; lia.
Qed.

(** With one occurrence only, [cut] finds it and finds nothing after. *)
Lemma cut_single (sep a r : string) :
  sep <> EmptyString ->
  Py.occurrences sep (a ++ sep ++ r) = 1%nat ->
  Py.cut sep (a ++ sep ++ r) = Some (a, r) /\ Py.cut sep r = None.
Proof.
  intros Hsep. induction a as [|c a IH]; intros H.
  - change (EmptyString ++ sep ++ r) with (sep ++ r) in *.
    rewrite cut_unfold, prefix_append, drop_append. split; [reflexivity|].
    apply cut_none_occurrences.
    destruct sep as [|x sep]; [now elim Hsep|].
    change (String x sep ++ r) with (String x (sep ++ r)) in H.
    cbn [Py.occurrences] in H.
    change (String x (sep ++ r)) with (String x sep ++ r) in H.
    rewrite prefix_append in H.
    pose proof (occurrences_suffix (String x sep) sep r). lia.
  - change (String c a ++ sep ++ r) with (String c (a ++ sep ++ r)) in *.
    cbn [Py.occurrences] in H.
    pose proof (occurrences_here sep a r) as H1.
    rewrite cut_unfold.
    destruct (prefix sep (String c (a ++ sep ++ r))); [lia|].
    destruct IH as [IH1 IH2]; [lia|]. rewrite IH1. now split.
Qed.

(** [labeled_text] in terms of [cut]: the piece between the first
    occurrence of the separator and the next one. *)
Lemma labeled_text_cut (sep text : string) :
  sep <> EmptyString ->
  labeled_text sep text =
  match Py.cut sep text with
  | None => Exc IndexError
  | Some (_, r) =>
      Ret (Py.strip match Py.cut sep r with
                    | Some (b, _) => b
                    | None => r
                    end)
  end.
Proof.
  intros Hsep. unfold labeled_text, subscript.
  destruct (Py.cut sep text) as [[a r]|] eqn:E.
  - rewrite (split_cut _ _ _ _ Hsep E).
    destruct (Py.cut sep r) as [[b r2]|] eqn:E2.
    + now rewrite (split_cut _ _ _ _ Hsep E2).
    + now rewrite (split_whole _ _ E2).
  - now rewrite (split_whole _ _ E).
Qed.

Lemma field_present (inner : list string) (i : nat) (sep text : string) :
  nth_error inner i = Some text -> field inner i sep = labeled_text sep text.
Proof.
  intros H. unfold field, subscript, Py.len.
  assert (i < List.length inner)%nat as Hlt
    by (apply nth_error_Some; congruence).
  destruct (Z.ltb_spec (Z.of_nat i) (Z.of_nat (List.length inner))); [|lia].
  now rewrite H.
Qed.

Lemma field_absent (inner : list string) (i : nat) (sep : string) :
  Py.len inner <= Z.of_nat i -> field inner i sep = Ret EmptyString.
Proof.
  intros H. unfold field.
  destruct (Z.ltb_spec (Z.of_nat i) (Py.len inner)); [lia | reflexivity].
Qed.

(** [parse_item] returns exactly when its four fields do. *)
Lemma parse_item_fields (item : RawItem) (p : Product) :
  parse_item item = Ret p <->
  field (inner_elements item) 0 ":" = Ret (ID p) /\
  field (inner_elements item) 1 "Shade" = Ret (Shade p) /\
  field (inner_elements item) 2 "Details" = Ret (Details p) /\
  field (inner_elements item) 3 "Guarantee" = Ret (Guarantee p) /\
  Product_Name p = Py.strip (title item).
Proof.
  unfold parse_item.
  destruct (field _ 0 _) as [f0| |]; [|split; [discriminate | intros [H _]; discriminate]..].
  destruct (field _ 1 _) as [f1| |]; [|split; [discriminate | intros [_ [H _]]; discriminate]..].
  destruct (field _ 2 _) as [f2| |]; [|split; [discriminate | intros [_ [_ [H _]]]; discriminate]..].
  destruct (field _ 3 _) as [f3| |]; [|split; [discriminate | intros [_ [_ [_ [H _]]]]; discriminate]..].
  split.
  - intros H. injection H as <-. simpl. auto.
  - destruct p as [n i s d g]. simpl.
    intros [H0 [H1 [H2 [H3 H4]]]].
    injection H0 as ->. injection H1 as ->. injection H2 as ->.
    injection H3 as ->. now subst n.
Qed.

Lemma labeled_positions_separator (i : nat) (sep : string) :
  In (i, sep) labeled_positions -> sep <> EmptyString.
Proof.
  unfold labeled_positions. simpl.
  intros [H|[H|[H|[H|[]]]]]; injection H as _ <-; discriminate.
Qed.

Lemma labeled_field_of_record (item : RawItem) (p : Product) (i : nat) (sep : string) :
  In (i, sep) labeled_positions -> parse_item item = Ret p ->
  field (inner_elements item) i sep = Ret (nth i (labeled_fields p) EmptyString).
Proof.
  intros Hin H. apply parse_item_fields in H.
  destruct H as [H0 [H1 [H2 [H3 _]]]].
  unfold labeled_positions in Hin. simpl in Hin.
  destruct Hin as [E|[E|[E|[E|[]]]]]; injection E as <- <-; assumption.
Qed.

Lemma prefix_char (c c' : ascii) (s : string) :
  prefix (String c EmptyString) (String c' s) = Ascii.eqb c c'.
Proof.
  simpl. destruct (ascii_dec c c') as [->|n].
  - rewrite Ascii.eqb_refl. now destruct s.
  - symmetry. now apply Ascii.eqb_neq.
Qed.

Lemma cut_char_none (c : ascii) (s : string) :
  Py.has_char c s = false -> Py.cut (String c EmptyString) s = None.
Proof.
  induction s as [|c' s IH]; [reflexivity|].
  cbn [Py.has_char]. intros H. apply orb_false_elim in H as [H1 H2].
  rewrite cut_unfold, prefix_char, H1, IH; [reflexivity | exact H2].
Qed.

Lemma cut_char_first (c : ascii) (a r : string) :
  Py.has_char c a = false ->
  Py.cut (String c EmptyString) (a ++ String c r) = Some (a, r).
Proof.
  induction a as [|c' a IH]; intros H.
  - change (EmptyString ++ String c r) with (String c r).
    now rewrite cut_unfold, prefix_char, Ascii.eqb_refl.
  - cbn [Py.has_char] in H. apply orb_false_elim in H as [H1 H2].
    change (String c' a ++ String c r) with (String c' (a ++ String c r)).
    now rewrite cut_unfold, prefix_char, H1, IH.
Qed.

(** C3, as amended.  For every labeled fragment that is present and in
    whose text the separator of its position occurs exactly once, the
    parser yields the text after the separator with the surrounding
    whitespace trimmed: the field expression evaluates to it, and it is
    the field of every record parsed from the item. *)
Theorem labeled_fragment_single_delimiter
  (item : RawItem) (i : nat) (sep a r : string) :
  In (i, sep) labeled_positions ->
  nth_error (inner_elements item) i = Some (a ++ sep ++ r) ->
  Py.occurrences sep (a ++ sep ++ r) = 1%nat ->
  field (inner_elements item) i sep = Ret (Py.strip r) /\
  (forall p, parse_item item = Ret p ->
             nth i (labeled_fields p) EmptyString = Py.strip r).
Proof.
  intros Hin Hnth Hocc.
  pose proof (labeled_positions_separator _ _ Hin) as Hsep.
  assert (field (inner_elements item) i sep = Ret (Py.strip r)) as Hfield.
  { rewrite (field_present _ _ _ _ Hnth), (labeled_text_cut _ _ Hsep).
    destruct (cut_single _ _ _ Hsep Hocc) as [-> ->]. reflexivity. }
  split; [exact Hfield|].
  intros p Hp. pose proof (labeled_field_of_record _ _ _ _ Hin Hp) as H.
  rewrite Hfield in H. congruence.
Qed.

(** The scenario of the specification: the identifier fragment
    ["ID: 48213"] yields the id ["48213"]. *)
Lemma labeled_fragment_id_48213 :
  (field (inner_elements item_plain_id) 0 ":" = Ret "48213" /\
   (forall p, parse_item item_plain_id = Ret p ->
              nth 0 (labeled_fields p) EmptyString = "48213")) /\
  parse_item item_plain_id =
    Ret {| Product_Name := "Velvet Matte"; ID := "48213"; Shade := "";
           Details := ""; Guarantee := "" |}.
Proof.
  split.
  - apply (labeled_fragment_single_delimiter item_plain_id 0 ":" "ID" " 48213").
    + simpl. auto.
    + reflexivity.
    + reflexivity.
  - reflexivity.
Defined.

(** C3 as it is worded fails: where the separator occurs a second time
    the parser keeps only the text up to that occurrence, while stripping
    the label prefix up to the delimiter keeps the whole remainder. *)
Lemma second_delimiter_truncates :
  field (inner_elements item_two_colons) 0 ":" = Ret "48" /\
  Spec.strip_label_prefix ":" "ID: 48:21" = Ret "48:21".
Proof. split; reflexivity. Qed.

(** C10.  The ID is the text strictly between the first colon of the
    identifier fragment and its second colon, or the end of the text when
    there is no second colon, trimmed. *)
Theorem id_between_first_two_colons
  (item : RawItem) (a b tail : string) (others : list string) :
  inner_elements item = (a ++ ":" ++ b ++ tail) :: others ->
  Py.has_char ":" a = false ->
  Py.has_char ":" b = false ->
  tail = EmptyString \/ (exists c, tail = ":" ++ c) ->
  field (inner_elements item) 0 ":" = Ret (Py.strip b) /\
  (forall p, parse_item item = Ret p -> ID p = Py.strip b).
Proof.
  intros Hinner Ha Hb Htail.
  assert (field (inner_elements item) 0 ":" = Ret (Py.strip b)) as Hfield.
  { rewrite (field_present _ 0 _ (a ++ ":" ++ b ++ tail))
      by (rewrite Hinner; reflexivity).
    rewrite labeled_text_cut by discriminate.
    change (a ++ ":" ++ b ++ tail) with (a ++ String ":" (b ++ tail)).
    rewrite (cut_char_first _ _ _ Ha).
    destruct Htail as [->|[c ->]].
    - rewrite append_empty_r, (cut_char_none _ _ Hb). reflexivity.
    - change (b ++ ":" ++ c) with (b ++ String ":" c).
      rewrite (cut_char_first _ _ _ Hb). reflexivity. }
  split; [exact Hfield|].
  intros p Hp. apply parse_item_fields in Hp. destruct Hp as [H0 _].
  rewrite Hfield in H0. congruence.
Qed.

(** The fragment ["ID: 48:21"]: the id is ["48"], not ["48:21"]. *)
Lemma id_of_48_colon_21 :
  (field (inner_elements item_two_colons) 0 ":" = Ret "48" /\
   (forall p, parse_item item_two_colons = Ret p -> ID p = "48")) /\
  parse_item item_two_colons =
    Ret {| Product_Name := "Velvet Matte"; ID := "48"; Shade := "";
           Details := ""; Guarantee := "" |}.
Proof.
  split.
  - apply (id_between_first_two_colons item_two_colons "ID" " 48" ":21" []).
    + reflexivity.
    + reflexivity.
    + reflexivity.
    + right. exists "21". reflexivity.
  - reflexivity.
Defined.

Lemma field_returns (inner : list string) (i : nat) (sep : string) :
  sep <> EmptyString ->
  (forall text, nth_error inner i = Some text -> Py.contains sep text = true) ->
  exists v, field inner i sep = Ret v /\
            (Py.len inner <= Z.of_nat i -> v = EmptyString).
Proof.
  intros Hsep Hall.
  destruct (nth_error inner i) as [text|] eqn:E.
  - rewrite (field_present _ _ _ _ E), (labeled_text_cut _ _ Hsep).
    specialize (Hall text eq_refl). unfold Py.contains in Hall.
    destruct (Py.cut sep text) as [[a r]|]; [|discriminate].
    eexists. split; [reflexivity|].
    intros Hlen.
    assert (i < List.length inner)%nat
      by (apply nth_error_Some; congruence).
    unfold Py.len in Hlen. lia.
  - apply nth_error_None in E.
    exists EmptyString. split; [|reflexivity].
    apply field_absent. unfold Py.len. lia.
Qed.

(** C6, as amended.  For every raw item with fewer than four labeled
    fragments, each of which contains the separator of its position,
    parsing returns a record: every absent fragment yields the empty
    string for its field, and the name is the trimmed title text. *)
Theorem missing_fragments_default_to_empty (item : RawItem) :
  Py.len (inner_elements item) < 4 ->
  (forall i sep text,
      In (i, sep) labeled_positions ->
      nth_error (inner_elements item) i = Some text ->
      Py.contains sep text = true) ->
  exists p,
    parse_item item = Ret p /\
    Product_Name p = Py.strip (title item) /\
    (forall i sep,
        In (i, sep) labeled_positions ->
        Py.len (inner_elements item) <= Z.of_nat i ->
        nth i (labeled_fields p) EmptyString = EmptyString).
Proof.
  intros _ Hall.
  destruct (field_returns (inner_elements item) 0 ":") as [v0 [H0 E0]];
    [discriminate | intros t; apply Hall; simpl; auto |].
  destruct (field_returns (inner_elements item) 1 "Shade") as [v1 [H1 E1]];
    [discriminate | intros t; apply Hall; simpl; auto |].
  destruct (field_returns (inner_elements item) 2 "Details") as [v2 [H2 E2]];
    [discriminate | intros t; apply Hall; simpl; auto |].
  destruct (field_returns (inner_elements item) 3 "Guarantee") as [v3 [H3 E3]];
    [discriminate | intros t; apply Hall; simpl; auto |].
  exists {| Product_Name := Py.strip (title item); ID := v0; Shade := v1;
            Details := v2; Guarantee := v3 |}.
  split; [|split; [reflexivity|]].
  - apply parse_item_fields. simpl. auto.
  - intros i sep Hin Hlen. unfold labeled_positions in Hin. simpl in Hin.
    destruct Hin as [E|[E|[E|[E|[]]]]]; injection E as <- <-; simpl; auto.
Qed.

(** An item with two of the four labeled fragments. *)
Lemma two_fragments_parse :
  exists p,
    parse_item item_two_fragments = Ret p /\
    Product_Name p = Py.strip (title item_two_fragments) /\
    (forall i sep,
        In (i, sep) labeled_positions ->
        Py.len (inner_elements item_two_fragments) <= Z.of_nat i ->
        nth i (labeled_fields p) EmptyString = EmptyString).
Proof.
  apply (missing_fragments_default_to_empty item_two_fragments).
  - reflexivity.
  - intros i sep text Hin. unfold labeled_positions in Hin. simpl in Hin.
    destruct Hin as [E|[E|[E|[E|[]]]]]; injection E as <- <-; simpl;
      intros H; try discriminate; injection H as <-; reflexivity.
Defined.

(** C6 as it is worded fails: an item with a single labeled fragment that
    lacks the separator has fewer than four fragments, and parsing it
    raises. *)
Lemma fragment_without_separator_raises :
  Py.len (inner_elements item_without_colon) < 4 /\
  parse_item item_without_colon = Exc IndexError.
Proof. split; reflexivity. Qed.

(** * What the steps of the program do to the state *)

Section Stepwise.

Variable R : State -> State -> Prop.
Hypothesis R_refl : forall st, R st st.
Hypothesis R_trans : forall a b c, R a b -> R b c -> R a c.
Hypothesis R_event :
  forall e st, harmless e = true -> R st (record_event e st).
Hypothesis R_session :
  forall f st, R st (snd (set_session_file f st)).
Hypothesis R_cookies :
  forall cs st, R st (snd (store_cookies cs st)).
Hypothesis R_script :
  forall src st, R st (snd (register_init_script src st)).

Variable w : World.

Lemma respects_ret {A} (a : A) : respects R (ret a).
Proof. intros st. apply R_refl. Qed.

Lemma respects_raise {A} (e : exn) : respects R (@raise A e).
Proof. intros st. apply R_refl. Qed.

Lemma respects_out_of_fuel {A} : respects R (@out_of_fuel A).
Proof. intros st. apply R_refl. Qed.

Lemma respects_lift {A} (r : res A) : respects R (lift r).
Proof. intros st. apply R_refl. Qed.

Lemma respects_local {A} (v : option A) : respects R (local v).
Proof. destruct v; [apply respects_ret | apply respects_raise]. Qed.

Lemma respects_bind {A B} (m : M A) (k : A -> M B) :
  respects R m -> (forall a, respects R (k a)) -> respects R (bind m k).
Proof.
  intros Hm Hk st. unfold bind. specialize (Hm st).
  destruct (m st) as [[a|e|] st1]; simpl in *; [|assumption..].
  eapply R_trans; [exact Hm | apply Hk].
Qed.

Lemma respects_try_except {A} (body : M A) (handler : exn -> M A) :
  respects R body -> (forall e, respects R (handler e)) ->
  respects R (try_except body handler).
Proof.
  intros Hm Hk st. unfold try_except. specialize (Hm st).
  destruct (body st) as [[a|e|] st1]; simpl in *; [assumption| |assumption].
  eapply R_trans; [exact Hm | apply Hk].
Qed.

Lemma respects_try_finally {A} (body : M A) (final : M unit) :
  respects R body -> respects R final -> respects R (try_finally body final).
Proof.
  intros Hm Hk st. unfold try_finally. specialize (Hm st).
  destruct (body st) as [[a|e|] st1]; simpl in *; [| |assumption];
    specialize (Hk st1); destruct (final st1) as [[u|e'|] st2]; simpl in *;
    eapply R_trans; eauto.
Qed.

Lemma respects_print (m : message) : respects R (print m).
Proof. intros st. apply R_event. reflexivity. Qed.

Lemma respects_request (c : call) :
  harmless (Called c) = true -> respects R (request w c).
Proof.
  intros H st. unfold request.
  destruct (raises w (trace st) c); simpl; now apply R_event.
Qed.

Lemma respects_query {A} (c : call) (reply : list event -> A) :
  harmless (Called c) = true -> respects R (query w c reply).
Proof.
  intros H st. unfold query.
  destruct (raises w (trace st) c); simpl; now apply R_event.
Qed.

Lemma respects_wrap_errors {A} (s : stage) (m1 : message)
      (m2 : exn -> message) (body : M A) :
  respects R body -> respects R (wrap_errors s m1 m2 body).
Proof.
  intros H. unfold wrap_errors. apply respects_try_except; [exact H|].
  intros e. destruct e;
    (apply respects_bind; [apply respects_print | intros; apply respects_raise]).
Qed.

Ltac respects_steps :=
  repeat first
    [ apply respects_ret
    | apply respects_raise
    | apply respects_print
    | apply respects_lift
    | apply respects_local
    | (apply respects_request; reflexivity)
    | (apply respects_query; reflexivity)
    | (apply respects_bind; [|intros ?])
    | apply respects_wrap_errors
    | (apply respects_try_except; [|intros ?])
    | (intros st; apply R_session)
    | (intros st; apply R_cookies)
    | (intros st; apply R_script)
    | match goal with
      | |- respects _ (if ?b then _ else _) => destruct b
      | |- respects _ (match ?x with _ => _ end) => destruct x
      end ].

Lemma respects_save_session : respects R (save_session w).
Proof. unfold save_session. respects_steps. Qed.

Lemma respects_load_session : respects R (load_session w).
Proof.
  intros st. unfold load_session.
  destruct (session_file st) as [f|]; [|apply respects_print].
  revert st. change (respects R
    (try_except
       (print LoadingSession ;;
        request w (OpenRead SESSION_FILE) ;;
        session_data <- json_load w f ;;
        request w (AddCookies (cookies (storage_state session_data))) ;;
        store_cookies (cookies (storage_state session_data)) ;;
        request w (AddInitScript (init_script (session_storage session_data))) ;;
        register_init_script (init_script (session_storage session_data)) ;;
        print SessionLoaded)
       (fun e => print (ErrorLoadingSession e)))).
  unfold json_load. respects_steps.
Qed.

Lemma respects_login_if_needed : respects R (login_if_needed w).
Proof. unfold login_if_needed. respects_steps. Qed.

Lemma respects_navigate_to_product_table :
  respects R (navigate_to_product_table w).
Proof. unfold navigate_to_product_table. respects_steps. Qed.

Lemma respects_trigger_growth (rows : list RawItem) (n : Z) :
  respects R (trigger_growth w rows n).
Proof. unfold trigger_growth. respects_steps. Qed.

Lemma respects_collect (fuel : nat) :
  forall total prev n rows, respects R (collect w fuel total prev n rows).
Proof.
  induction fuel as [|fuel IH]; intros total prev n rows; simpl;
    destruct (n <? total); try apply respects_ret;
    try apply respects_out_of_fuel.
  apply respects_bind; [apply respects_query; reflexivity|].
  intros rows'. destruct (Py.len rows' =? prev); [apply respects_ret|].
  apply respects_bind; [|intros _; apply IH].
  destruct (Py.len rows' <? total);
    [apply respects_trigger_growth | apply respects_ret].
Qed.

Lemma respects_extract_products (fuel : nat) :
  respects R (extract_products w fuel).
Proof.
  unfold extract_products. apply respects_wrap_errors.
  apply respects_bind; [apply respects_request; reflexivity | intros _].
  apply respects_bind; [apply respects_print | intros _].
  apply respects_bind; [apply respects_query; reflexivity | intros text].
  apply respects_bind; [apply respects_lift | intros total].
  apply respects_bind; [apply respects_collect | intros rows].
  respects_steps.
Qed.

Lemma respects_steps_before_write (fuel : nat) :
  respects R (steps_before_write w fuel).
Proof.
  unfold steps_before_write.
  apply respects_bind; [apply respects_request; reflexivity | intros _].
  apply respects_bind; [apply respects_load_session | intros _].
  apply respects_bind; [apply respects_request; reflexivity | intros _].
  apply respects_bind; [apply respects_request; reflexivity | intros _].
  apply respects_bind; [apply respects_request; reflexivity | intros _].
  apply respects_bind; [apply respects_login_if_needed | intros _].
  apply respects_bind; [apply respects_navigate_to_product_table | intros _].
  apply respects_extract_products.
Qed.

Hypothesis R_output :
  forall f st, R st (snd (set_output_file f st)).

Lemma respects_save_to_json (data : list Product) :
  respects R (save_to_json w data).
Proof.
  unfold save_to_json. respects_steps; intros st; apply R_output.
Qed.

Lemma respects_pipeline (fuel : nat) : respects R (pipeline w fuel).
Proof.
  unfold pipeline.
  apply respects_bind; [apply respects_steps_before_write | intros products].
  apply respects_bind; [apply respects_save_to_json | intros _].
  apply respects_save_session.
Qed.

End Stepwise.

(** ** Two instances: the history grows by harmless events, and the
    output file stays as it is *)

Lemma adds_harmless_refl (st : State) : adds_harmless st st.
Proof. exists []. split; [now rewrite app_nil_r | reflexivity]. Qed.

Lemma adds_harmless_trans (a b c : State) :
  adds_harmless a b -> adds_harmless b c -> adds_harmless a c.
Proof.
  intros [e1 [H1 F1]] [e2 [H2 F2]]. exists (e1 ++ e2)%list. split.
  - now rewrite H2, H1, app_assoc.
  - now rewrite forallb_app, F1, F2.
Qed.

Lemma adds_harmless_event (e : event) (st : State) :
  harmless e = true -> adds_harmless st (record_event e st).
Proof. intros H. exists [e]. split; [reflexivity | simpl; now rewrite H]. Qed.

Lemma adds_harmless_same_trace (st st' : State) :
  trace st' = trace st -> adds_harmless st st'.
Proof.
  intros H. exists []. split; [now rewrite app_nil_r | reflexivity].
Qed.

Lemma harmless_pipeline (w : World) (fuel : nat) :
  respects adds_harmless (pipeline w fuel).
Proof.
  apply respects_pipeline;
    first [ exact adds_harmless_refl
          | exact adds_harmless_trans
          | exact adds_harmless_event
          | intros x st; now apply adds_harmless_same_trace ].
Qed.

Lemma same_output_steps_before_write (w : World) (fuel : nat) :
  respects same_output (steps_before_write w fuel).
Proof.
  apply respects_steps_before_write; unfold same_output; intros;
    try reflexivity; congruence.
Qed.

Lemma count_app (p : event -> bool) (a b : list event) :
  count p (a ++ b) = (count p a + count p b)%nat.
Proof. unfold count. now rewrite filter_app, length_app. Qed.

Lemma count_cons (p : event -> bool) (e : event) (l : list event) :
  count p (e :: l) = ((if p e then 1 else 0) + count p l)%nat.
Proof. unfold count. cbn [filter]. now destruct (p e). Qed.

Lemma count_nil (p : event -> bool) : count p [] = 0%nat.
Proof. reflexivity. Qed.

Lemma count_harmless (evs : list event) :
  forallb harmless evs = true ->
  count is_close evs = 0%nat /\ count is_stop evs = 0%nat.
Proof.
  induction evs as [|e evs IH]; [now split|].
  cbn [forallb]. intros H. apply andb_true_iff in H as [He Hs].
  destruct (IH Hs) as [IH1 IH2]. unfold harmless in He.
  apply negb_true_iff, orb_false_elim in He as [H1 H2].
  unfold count in *. cbn [filter]. now rewrite H1, H2.
Qed.

(** * The orchestrator *)

(** The [try] block with its handler adds no close and no stop. *)
Lemma guarded_pipeline_harmless (w : World) (fuel : nat) :
  respects adds_harmless
    (try_except (pipeline w fuel) (fun e => print (UnexpectedErrorInMain e))).
Proof.
  apply respects_try_except;
    first [ exact adds_harmless_trans
          | apply harmless_pipeline
          | intros e st; now apply adds_harmless_event ].
Qed.

(** What [launched] does once the launch has returned. *)
Lemma launched_after_launch (w : World) (fuel : nat) (st st' : State) (r : res unit) :
  raises w (trace st) Launch = None ->
  launched w fuel st = (r, st') ->
  r <> OutOfFuel ->
  exists evs,
    trace st' = (trace st ++ [Called Launch] ++ evs ++ [Called CloseBrowser])%list
    /\ forallb harmless evs = true.
Proof.
  intros Hlaunch Hrun Hr. unfold launched, request in Hrun.
  rewrite Hlaunch in Hrun. unfold try_finally in Hrun.
  pose proof (guarded_pipeline_harmless w fuel
                (record_event (Called Launch) st)) as [evs [Ht Hf]].
  destruct (try_except _ _ (record_event (Called Launch) st)) as [r1 st1].
  simpl in Ht.
  assert (trace (record_event (Called CloseBrowser) st1)
          = (trace st ++ [Called Launch] ++ evs ++ [Called CloseBrowser])%list)
    as Hfinal by (simpl; rewrite Ht, <- !app_assoc; reflexivity).
  exists evs. split; [|exact Hf].
  destruct r1 as [u|e|];
    [ | | injection Hrun as <- _; now elim Hr ];
    destruct (raises w (trace st1) CloseBrowser);
    injection Hrun as _ <-; exact Hfinal.
Qed.

(** What [launched] does when the launch raises. *)
Lemma launched_launch_raises (w : World) (fuel : nat) (st : State) (e : exn) :
  raises w (trace st) Launch = Some e ->
  launched w fuel st =
    (Exc UnboundLocalError,
     record_event (Printed (UnexpectedErrorInMain e))
                  (record_event (Called Launch) st)).
Proof.
  intros H. unfold launched, request. now rewrite H.
Qed.

(** C9, as amended.  On every exit path of [main] on which Playwright
    was started, its scope is stopped exactly once; and on every exit path
    on which the browser was launched, whether the later steps succeed or
    raise, [browser.close()] is requested exactly once. *)
Theorem browser_closed_once_after_launch
  (w : World) (fuel : nat) (st st' : State) (r : res unit) :
  main w fuel st = (r, st') ->
  r <> OutOfFuel ->
  raises w (trace st) StartPlaywright = None ->
  count is_stop (trace st') = (count is_stop (trace st) + 1)%nat /\
  (raises w (trace st ++ [Called StartPlaywright])%list Launch = None ->
   count is_close (trace st') = (count is_close (trace st) + 1)%nat).
Proof.
  intros Hrun Hr Hstart. unfold main, bind, request in Hrun.
  rewrite Hstart in Hrun. unfold try_finally in Hrun.
  set (st1 := record_event (Called StartPlaywright) st) in *.
  destruct (launched w fuel st1) as [r1 st2] eqn:EL.
  assert (r1 <> OutOfFuel /\ st' = record_event (Called StopPlaywright) st2)
    as [Hr1 ->].
  { destruct r1 as [u|e|];
      [ | | injection Hrun as <- _; now elim Hr ];
      (split; [discriminate|]);
      destruct (raises w (trace st2) StopPlaywright);
      now injection Hrun as _ <-. }
  destruct (raises w (trace st1) Launch) as [e|] eqn:Elaunch.
  - rewrite (launched_launch_raises _ _ _ _ Elaunch) in EL.
    injection EL as _ <-. split.
    + cbn [trace record_event st1].
      rewrite !count_app, !count_cons, !count_nil. cbn [is_stop]. lia.
    + intros H. cbn [trace record_event st1] in Elaunch. congruence.
  - destruct (launched_after_launch _ _ _ _ _ Elaunch EL Hr1) as [evs [Ht Hf]].
    destruct (count_harmless _ Hf) as [Hc Hs].
    cbn [trace record_event]. rewrite Ht. cbn [trace record_event st1].
    rewrite !count_app, Hc, Hs, !count_cons, !count_nil.
    cbn [is_stop is_close]. split; [lia | intros _; lia].
Qed.

(** A run that extracts 24 products: one stop, one close. *)
Lemma complete_run_closes_once :
  count is_stop (trace (snd (main world_complete 1 empty_state)))
  = (count is_stop (trace empty_state) + 1)%nat /\
  (raises world_complete (trace empty_state ++ [Called StartPlaywright])%list
          Launch = None ->
   count is_close (trace (snd (main world_complete 1 empty_state)))
   = (count is_close (trace empty_state) + 1)%nat).
Proof.
  apply (browser_closed_once_after_launch world_complete 1 empty_state
           (snd (main world_complete 1 empty_state))
           (fst (main world_complete 1 empty_state))).
  - apply surjective_pairing.
  - vm_compute. discriminate.
  - reflexivity.
Defined.

(** C9 as it is worded fails: when the launch itself raises, the name
    [browser] is unbound in the [finally] clause, no close is requested,
    and [main] ends with [UnboundLocalError]. *)
Lemma launch_failure_never_closes :
  fst (main world_launch_fails 0 empty_state) = Exc UnboundLocalError /\
  count is_close (trace (snd (main world_launch_fails 0 empty_state))) = 0%nat.
Proof. split; reflexivity. Qed.

(** C2, as amended.  When the browser works and a step before the output
    write raises, [main] prints the fault, closes the browser, stops
    Playwright and returns normally: the output file is what it was
    before the run, and the exit status is 0. *)
Theorem failure_before_write_is_swallowed
  (w : World) (fuel : nat) (st st1 : State) (e : exn) :
  browser_works w ->
  steps_before_write w fuel (after_launch st) = (Exc e, st1) ->
  main w fuel st =
    (Ret tt,
     record_event (Called StopPlaywright)
       (record_event (Called CloseBrowser)
          (record_event (Printed (UnexpectedErrorInMain e)) st1))) /\
  output_file (snd (main w fuel st)) = output_file st /\
  exit_status (fst (main w fuel st)) = Some 0.
Proof.
  intros Hworks Hfail.
  assert (main w fuel st =
    (Ret tt,
     record_event (Called StopPlaywright)
       (record_event (Called CloseBrowser)
          (record_event (Printed (UnexpectedErrorInMain e)) st1)))) as Hmain.
  { unfold main, bind, request.
    rewrite (Hworks (trace st) StartPlaywright) by (simpl; auto).
    unfold try_finally, launched, request.
    rewrite (Hworks _ Launch) by (simpl; auto).
    unfold try_finally, try_except, pipeline, bind.
    unfold after_launch in Hfail. rewrite Hfail.
    unfold print, request.
    rewrite (Hworks _ CloseBrowser) by (simpl; auto).
    rewrite (Hworks _ StopPlaywright) by (simpl; auto).
    reflexivity. }
  rewrite Hmain. split; [reflexivity|]. split; [|reflexivity].
  cbn [snd output_file record_event].
  pose proof (same_output_steps_before_write w fuel (after_launch st)) as H.
  unfold same_output in H. rewrite Hfail in H. exact H.
Qed.

(** A run without credentials: the login step raises [ValueError]. *)
Lemma missing_credentials_run :
  main world_no_credentials 0 empty_state =
    (Ret tt,
     record_event (Called StopPlaywright)
       (record_event (Called CloseBrowser)
          (record_event (Printed (UnexpectedErrorInMain ValueError))
             (snd (steps_before_write world_no_credentials 0
                     (after_launch empty_state)))))) /\
  output_file (snd (main world_no_credentials 0 empty_state))
  = output_file empty_state /\
  exit_status (fst (main world_no_credentials 0 empty_state)) = Some 0.
Proof.
  apply (failure_before_write_is_swallowed world_no_credentials 0 empty_state
           (snd (steps_before_write world_no_credentials 0
                   (after_launch empty_state))) ValueError).
  - intros tr c _. reflexivity.
  - reflexivity.
Defined.

(** C2 as it is worded fails: a step of the run raises, and the run still
    ends with exit status 0. *)
Lemma swallowed_failure_exits_zero :
  fst (steps_before_write world_no_credentials 0 (after_launch empty_state))
  = Exc ValueError /\
  exit_status (fst (main world_no_credentials 0 empty_state)) = Some 0.
Proof. split; reflexivity. Qed.

(** When the write itself raises, the output file has already been opened
    for writing: it is left incomplete, and the run still exits with 0. *)
Example failed_dump_leaves_partial_file :
  output_file (snd (main world_dump_fails 1 empty_state)) = Some Partial /\
  exit_status (fst (main world_dump_fails 1 empty_state)) = Some 0.
Proof. split; vm_compute; reflexivity. Qed.

(** * The growth loop *)

(** The loop test fails: the loop body is never entered. *)
Lemma collect_skipped (w : World) (fuel : nat) (total prev n : Z)
      (rows : option (list RawItem)) (st : State) :
  total <= n -> collect w fuel total prev n rows st = (Ret rows, st).
Proof.
  intros H. destruct fuel; simpl;
    destruct (Z.ltb_spec n total); try lia; reflexivity.
Qed.



(** C5.  In any pass of the loop, if the count read reaches or exceeds
    the expected total, the loop ends in that pass and hands back the rows
    just read: the read is the only request, so no hover, no scroll and no
    growth-wait follows. *)
Theorem reached_total_stops_loop
  (w : World) (fuel : nat) (total prev n : Z)
  (rows : option (list RawItem)) (st : State) :
  n < total ->
  raises w (trace st) (AllMatching "div.grid>div.rounded-lg") = None ->
  total <= Py.len (rows_now w (trace st)) ->
  collect w (S fuel) total prev n rows st =
    (Ret (Some (rows_now w (trace st))),
     record_event (Called (AllMatching "div.grid>div.rounded-lg")) st).
Proof.
  intros Hlt Hok Hge. cbn [collect].
  destruct (Z.ltb_spec n total); [|lia].
  unfold bind, query. rewrite Hok.
  destruct (Py.len (rows_now w (trace st)) =? prev); [reflexivity|].
  destruct (Z.ltb_spec (Py.len (rows_now w (trace st))) total); [lia|].
  unfold ret at 1. now rewrite collect_skipped.
Qed.

(** The scenario of the specification: 24 rows present, 24 announced. *)
Lemma full_page_stops :
  collect world_complete 1 24 (-1) 0 None empty_state =
    (Ret (Some (rows_now world_complete (trace empty_state))),
     record_event (Called (AllMatching "div.grid>div.rounded-lg")) empty_state).
Proof.
  apply (reached_total_stops_loop world_complete 0 24 (-1) 0 None empty_state).
  - reflexivity.
  - reflexivity.
  - vm_compute. discriminate.
Defined.

(** * Extraction *)

(** What [wrap_errors] makes of a body that raises: one printed line and
    the [RuntimeError] of the stage that [wrapped] names. *)
Lemma wrap_errors_wraps {A} (s : stage) (m1 : message) (m2 : exn -> message)
      (body : M A) (st st1 : State) (e : exn) :
  body st = (Exc e, st1) ->
  exists m,
    wrap_errors s m1 m2 body st
    = (Exc (wrapped s e), record_event (Printed m) st1).
Proof.
  intros H. unfold wrap_errors, try_except. rewrite H.
  destruct e; unfold bind, print, raise; cbn [wrapped]; eauto.
Qed.






(** With an expected total of zero or less the loop is skipped, the name
    [rows] stays unbound, and the [for] statement raises. *)
Lemma nonpositive_total_raises (w : World) (fuel : nat) (st : State) (total : Z) :
  raises w (trace st)
    (WaitForSelector "//h3[contains(text(),'Product Inventory')]" 10000) = None ->
  raises w (summary_history st)
    (TextContent "//div[contains(text(),'Showing ')]") = None ->
  parse_total (summary_text w (summary_history st)) = Ret total ->
  total <= 0 ->
  extract_products w fuel st =
    (Exc (RuntimeError Extraction UnboundLocalError),
     record_event (Printed (ErrorExtracting UnboundLocalError))
       (record_event (Called (TextContent "//div[contains(text(),'Showing ')]"))
          (record_event (Printed ExtractingProducts)
             (record_event
                (Called (WaitForSelector
                           "//h3[contains(text(),'Product Inventory')]" 10000))
                st)))).
Proof.
  intros H1 H2 H3 H4.
  unfold extract_products, wrap_errors, try_except, bind, request, print,
    query, lift.
  rewrite H1. fold (summary_history st). rewrite H2, H3.
  rewrite collect_skipped by exact H4. reflexivity.
Qed.

(** C1 (the code at the failing input).  On a page whose summary reads
    ["Showing 0 of 0 products"] the expected total is 0, no growth trigger
    is issued, and [extract_products] raises instead of returning the
    empty list. *)
Theorem zero_total_raises (fuel : nat) :
  parse_total "Showing 0 of 0 products" = Ret 0 /\
  fst (extract_products world_zero_total fuel empty_state)
  = Exc (RuntimeError Extraction UnboundLocalError) /\
  count is_growth_trigger
        (trace (snd (extract_products world_zero_total fuel empty_state)))
  = 0%nat.
Proof.
  split; [reflexivity|].
  rewrite (nonpositive_total_raises world_zero_total fuel empty_state 0);
    [split; reflexivity | reflexivity | reflexivity | reflexivity | lia].
Qed.

(** The scenario of the specification, end to end: 24 rows present, 24
    announced, 24 records returned, no growth trigger. *)
Example full_page_extracts_24 :
  option_map (@List.length Product)
    (match fst (extract_products world_complete 1 empty_state) with
     | Ret products => Some products
     | _ => None
     end) = Some 24%nat /\
  count is_growth_trigger
        (trace (snd (extract_products world_complete 1 empty_state))) = 0%nat.
Proof. split; vm_compute; reflexivity. Qed.

(** A page that announces ten rows and never shows more than three: one
    growth trigger (hover, scroll, wait), then the second read stabilizes
    and the three rows are parsed. *)
Example stalled_page_extracts_3 :
  option_map (@List.length Product)
    (match fst (extract_products world_stalled 2 empty_state) with
     | Ret products => Some products
     | _ => None
     end) = Some 3%nat /\
  count is_growth_trigger
        (trace (snd (extract_products world_stalled 2 empty_state))) = 3%nat.
Proof. split; vm_compute; reflexivity. Qed.

(** * Saving and restoring a session *)

Lemma all_chars_append (p : ascii -> bool) (a b : string) :
  all_chars p (a ++ b) = all_chars p a && all_chars p b.
Proof.
  induction a as [|c a IH]; simpl; [reflexivity|].
  now rewrite IH, andb_assoc.
Qed.

Lemma plain_char_code (c : ascii) :
  plain_char c = true ->
  (32 <= Js.code c /\ Js.code c <> 34 /\ Js.code c <> 39 /\ Js.code c <> 92)%N.
Proof.
  unfold plain_char. cbv zeta. intros H.
  apply andb_true_iff in H as [H H92]. apply andb_true_iff in H as [H H39].
  apply andb_true_iff in H as [H32 H34].
  apply N.leb_le in H32.
  apply negb_true_iff, N.eqb_neq in H34, H39, H92. auto.
Qed.

Ltac decide_code :=
  repeat match goal with
         | |- context [(?a =? ?b)%N] => destruct (N.eqb_spec a b); [lia|]
         | |- context [(?a <? ?b)%N] => destruct (N.ltb_spec a b); [lia|]
         end.

Lemma quote_char_plain (c : ascii) :
  plain_char c = true -> Js.quote_char c = Js.one c.
Proof.
  intros H. apply plain_char_code in H as [H32 [H34 [H39 H92]]].
  unfold Js.quote_char. cbv zeta. decide_code. reflexivity.
Qed.

Lemma quote_chars_plain (s : string) :
  all_chars plain_char s = true -> Js.quote_chars s = s.
Proof.
  induction s as [|c s IH]; [reflexivity|].
  cbn [all_chars Js.quote_chars]. intros H.
  apply andb_true_iff in H as [Hc Hs].
  now rewrite (quote_char_plain _ Hc), (IH Hs).
Qed.

(** A quoted plain text followed by [rest], character by character. *)
Lemma quote_plain_append (s rest : string) :
  all_chars plain_char s = true ->
  Js.quote s ++ rest = String Js.dquote (s ++ String Js.dquote rest).
Proof.
  intros H. unfold Js.quote. rewrite (quote_chars_plain _ H).
  unfold Js.one. cbn [append]. now rewrite append_assoc.
Qed.

(** A plain text inside a single-quoted literal stands for itself. *)
Lemma string_literal_plain (s rest : string) :
  all_chars (fun c => plain_char c || Ascii.eqb c Js.dquote) s = true ->
  Js.string_literal (s ++ String Js.squote rest) = Js.Value (s, rest).
Proof.
  induction s as [|c s IH]; [reflexivity|].
  cbn [all_chars]. intros H. apply andb_true_iff in H as [Hc Hs].
  change (String c s ++ String Js.squote rest)
    with (String c (s ++ String Js.squote rest)).
  cbn [Js.string_literal]. cbv zeta.
  assert (Js.code c <> 39 /\ Js.code c <> 10 /\ Js.code c <> 13
          /\ Js.code c <> 92)%N as [H39 [H10 [H13 H92]]].
  { apply orb_true_iff in Hc as [Hc|Hc].
    - apply plain_char_code in Hc. lia.
    - apply Ascii.eqb_eq in Hc. subst c. vm_compute.
      repeat split; discriminate. }
  decide_code. cbn [orb]. rewrite (IH Hs). reflexivity.
Qed.

(** A plain text inside a JSON string stands for itself. *)
Lemma json_string_plain (s rest : string) :
  all_chars plain_char s = true ->
  Js.json_string (s ++ String Js.dquote rest) = Js.Value (s, rest).
Proof.
  induction s as [|c s IH]; [reflexivity|].
  cbn [all_chars]. intros H. apply andb_true_iff in H as [Hc Hs].
  change (String c s ++ String Js.dquote rest)
    with (String c (s ++ String Js.dquote rest)).
  cbn [Js.json_string]. cbv zeta.
  apply plain_char_code in Hc as [H32 [H34 [H39 H92]]].
  decide_code. rewrite (IH Hs). reflexivity.
Qed.

Lemma members_text_unfold (k v : string) (st : Js.storage) (rest : string) :
  all_chars plain_char k = true -> all_chars plain_char v = true ->
  Js.stringify_members ((k, v) :: st) ++ rest =
  String Js.dquote (k ++ String Js.dquote (String ":" (String Js.dquote
    (v ++ String Js.dquote
       match st with
       | [] => rest
       | _ :: _ => String "," (Js.stringify_members st ++ rest)
       end)))).
Proof.
  intros Hk Hv. cbn [Js.stringify_members].
  destruct st as [|kv st].
  - rewrite !append_assoc, (quote_plain_append k _ Hk).
    cbn [append]. now rewrite (quote_plain_append v _ Hv).
  - rewrite !append_assoc, (quote_plain_append k _ Hk).
    cbn [append]. now rewrite (quote_plain_append v _ Hv).
Qed.

Lemma members_text_starts (kv : string * string) (st : Js.storage) (rest : string) :
  plain_storage (kv :: st) ->
  exists tail, Js.stringify_members (kv :: st) ++ rest = String Js.dquote tail.
Proof.
  intros H. inversion H as [|x l [Hk Hv] Hl]; subst. destruct kv as [k v].
  rewrite (members_text_unfold k v st rest Hk Hv). eauto.
Qed.

Lemma skip_space_stays (c : ascii) (s : string) :
  Js.is_json_space c = false -> Js.skip_space (String c s) = String c s.
Proof. intros H. cbn [Js.skip_space]. now rewrite H. Qed.

Lemma starts_with_same (c : ascii) (s : string) :
  Js.starts_with c (String c s) = Some s.
Proof. cbn [Js.starts_with]. now rewrite Ascii.eqb_refl. Qed.

(** Parsing the members that [JSON.stringify] wrote gives them back. *)
Lemma members_of_stringified (st : Js.storage) :
  forall (kv : string * string) (n : nat) (acc : list (string * string)),
    plain_storage (kv :: st) ->
    (List.length (kv :: st) <= n)%nat ->
    Js.members n (Js.stringify_members (kv :: st) ++ "}") acc
    = Js.Value (acc ++ kv :: st)%list.
Proof.
  induction st as [|kv' st IH]; intros [k v] n acc Hplain Hn;
    inversion Hplain as [|x l [Hk Hv] Hl]; subst; cbn [fst snd] in *;
    (destruct n as [|n]; [simpl in Hn; lia|]);
    rewrite (members_text_unfold k v _ _ Hk Hv);
    cbn [Js.members];
    rewrite starts_with_same, (json_string_plain k _ Hk); cbv beta iota;
    rewrite (skip_space_stays ":") by reflexivity;
    rewrite starts_with_same;
    rewrite (skip_space_stays Js.dquote) by reflexivity;
    rewrite starts_with_same, (json_string_plain v _ Hv); cbv beta iota.
  - reflexivity.
  - rewrite (skip_space_stays ",") by reflexivity.
    change (Ascii.eqb "," ",") with true. cbv beta iota.
    destruct (members_text_starts kv' st "}" Hl) as [tail Htail].
    rewrite Htail, (skip_space_stays Js.dquote) by reflexivity.
    rewrite <- Htail, IH; [|exact Hl|simpl in *; lia].
    now rewrite <- app_assoc.
Qed.

Lemma members_text_length (st : Js.storage) :
  (List.length st <= String.length (Js.stringify_members st))%nat.
Proof.
  induction st as [|[k v] st IH]; [apply Nat.le_refl|].
  cbn [Js.stringify_members].
  destruct st as [|kv st].
  - rewrite !length_append. cbn [String.length List.length]. lia.
  - rewrite !length_append. cbn [String.length List.length] in *. lia.
Qed.

(** [JSON.parse] undoes [JSON.stringify] on plain text. *)
Lemma parse_stringify_plain (st : Js.storage) :
  plain_storage st -> Js.JSON_parse (Js.JSON_stringify st) = Js.Value st.
Proof.
  intros Hplain. unfold Js.JSON_stringify, Js.JSON_parse.
  change ("{" ++ Js.stringify_members st ++ "}")
    with (String "{" (Js.stringify_members st ++ "}")).
  rewrite (skip_space_stays "{") by reflexivity.
  change (Ascii.eqb "{" "{") with true. cbv beta iota.
  destruct st as [|kv st]; [reflexivity|].
  destruct (members_text_starts kv st "}" Hplain) as [tail Htail].
  rewrite Htail, (skip_space_stays Js.dquote) by reflexivity.
  change (Ascii.eqb Js.dquote "}") with false. cbv beta iota.
  rewrite <- Htail.
  apply (members_of_stringified st kv _ [] Hplain).
  pose proof (members_text_length (kv :: st)) as Hlen.
  cbn [String.length]. rewrite length_append. lia.
Qed.

(** The stringified text of a plain storage has no single quote, no
    backslash and no line break. *)
Lemma stringify_plain_chars (st : Js.storage) :
  plain_storage st ->
  all_chars (fun c => plain_char c || Ascii.eqb c Js.dquote)
            (Js.JSON_stringify st) = true.
Proof.
  intros Hplain.
  assert (forall s, all_chars plain_char s = true ->
            all_chars (fun c => plain_char c || Ascii.eqb c Js.dquote)
                      (Js.quote s) = true) as Hquote.
  { intros s Hs. unfold Js.quote. rewrite (quote_chars_plain _ Hs).
    rewrite !all_chars_append. cbn.
    rewrite andb_true_r.
    induction s as [|c s IHs]; [reflexivity|].
    cbn [all_chars] in *. apply andb_true_iff in Hs as [Hc Hs].
    now rewrite Hc, (IHs Hs). }
  unfold Js.JSON_stringify. rewrite !all_chars_append.
  cbn [all_chars]. change (plain_char "{" || Ascii.eqb "{" Js.dquote) with true.
  change (plain_char "}" || Ascii.eqb "}" Js.dquote) with true.
  cbn [andb]. rewrite andb_true_r.
  induction Hplain as [|[k v] st [Hk Hv] Hst IH]; [reflexivity|].
  cbn [fst snd] in *. cbn [Js.stringify_members].
  destruct st as [|kv st].
  - rewrite !all_chars_append, (Hquote _ Hk), (Hquote _ Hv). reflexivity.
  - rewrite !all_chars_append, (Hquote _ Hk), (Hquote _ Hv), IH. reflexivity.
Qed.

Lemma strip_prefix_append (p x : string) : Js.strip_prefix p (p ++ x) = Some x.
Proof.
  induction p as [|c p IH]; [now destruct x|].
  cbn [append Js.strip_prefix]. now rewrite Ascii.eqb_refl.
Qed.

(** On the site, the init script built from the stringified text of a
    plain storage replays its entries. *)
Lemma init_script_replays (st current : Js.storage) :
  plain_storage st ->
  Js.run_init_script (init_script (Js.JSON_stringify st))
                     "hiring.idenhq.com" current
  = Js.Value (Js.replay st current).
Proof.
  intros Hplain. unfold init_script, Js.run_init_script.
  rewrite strip_prefix_append.
  change (Js.JSON_stringify st ++ "')")
    with (Js.JSON_stringify st ++ String Js.squote ")").
  rewrite (string_literal_plain _ _ (stringify_plain_chars _ Hplain)).
  cbn [String.eqb Ascii.eqb Bool.eqb].
  now rewrite (parse_stringify_plain _ Hplain).
Qed.

Lemma setItem_fresh (k v : string) (st : Js.storage) :
  ~ In k (map fst st) -> Js.setItem k v st = (st ++ [(k, v)])%list.
Proof.
  induction st as [|[k' v'] st IH]; [reflexivity|].
  cbn [map fst In Js.setItem]. intros H.
  destruct (String.eqb_spec k k') as [->|_]; [elim H; now left|].
  cbn [app]. f_equal. apply IH. intros Hin. apply H. now right.
Qed.

(** Replaying entries with distinct keys into a storage that has none of
    the keys appends them in order. *)
Lemma replay_fresh (entries : list (string * string)) :
  forall st,
    NoDup (map fst entries) ->
    (forall k, In k (map fst entries) -> ~ In k (map fst st)) ->
    Js.replay entries st = (st ++ entries)%list.
Proof.
  unfold Js.replay.
  induction entries as [|[k v] entries IH]; intros st Hnodup Hfresh.
  - now rewrite app_nil_r.
  - cbn [fold_left fst snd]. cbn [map fst] in Hnodup, Hfresh.
    inversion Hnodup as [|x l Hk Hrest]; subst.
    rewrite setItem_fresh by (apply Hfresh; now left).
    rewrite IH; [now rewrite <- app_assoc | exact Hrest |].
    intros k' Hin. rewrite map_app, in_app_iff. cbn [map fst In].
    intros [H|[H|[]]].
    + apply (Hfresh k'); [now right | exact H].
    + subst k'. now apply Hk.
Qed.

Lemma set_cookie_fresh (jar : list Cookie) (c : Cookie) :
  Forall (fun d => same_cookie c d = false) jar ->
  set_cookie jar c = (jar ++ [c])%list.
Proof.
  intros H. unfold set_cookie. f_equal.
  induction H as [|d jar Hd _ IH]; [reflexivity|].
  cbn [filter]. now rewrite Hd, IH.
Qed.

(** Adding distinct cookies to a store that holds none of them appends
    them in order. *)
Lemma store_fresh_cookies (cs : list Cookie) :
  forall jar,
    distinct_cookies cs ->
    Forall (fun c => Forall (fun d => same_cookie c d = false) jar) cs ->
    fold_left set_cookie cs jar = (jar ++ cs)%list.
Proof.
  unfold distinct_cookies.
  induction cs as [|c cs IH]; intros jar Hdistinct Hfresh.
  - now rewrite app_nil_r.
  - cbn [fold_left].
    inversion Hdistinct as [|x l Hc Hrest]; subst.
    inversion Hfresh as [|x l Hcjar Hcsjar]; subst.
    rewrite (set_cookie_fresh _ _ Hcjar).
    rewrite IH; [now rewrite <- app_assoc | exact Hrest |].
    clear IH Hdistinct Hfresh Hrest.
    induction cs as [|c' cs IHcs]; constructor.
    + apply Forall_app. split.
      * now inversion Hcsjar.
      * constructor; [|constructor]. now inversion Hc.
    + apply IHcs; [now inversion Hc | now inversion Hcsjar].
Qed.

(** What [save_session] leaves on disk when no request raises. *)
Lemma save_session_writes (w : World) (st : State) :
  never_raises w ->
  session_file (snd (save_session w st)) =
    Some (Whole {| session_storage :=
                     Js.JSON_stringify
                       (live_session_storage w
                          (trace st ++ [Called GetStorageState])%list);
                   storage_state := live_storage_state w (trace st) |}).
Proof.
  intros Hok.
  unfold save_session, try_except, bind, query, request, set_session_file,
    print. rewrite !Hok. reflexivity.
Qed.

(** What [load_session] installs in the context when no request
    raises. *)
Lemma load_session_installs (w : World) (st : State) (d : SessionData) :
  never_raises w ->
  session_file st = Some (Whole d) ->
  context_cookies (snd (load_session w st))
  = fold_left set_cookie (cookies (storage_state d)) (context_cookies st) /\
  context_init_scripts (snd (load_session w st))
  = (context_init_scripts st ++ [init_script (session_storage d)])%list.
Proof.
  intros Hok Hfile.
  unfold load_session. rewrite Hfile.
  unfold try_except, json_load, bind, print, request, ret, store_cookies,
    register_init_script.
  rewrite !Hok. split; reflexivity.
Qed.

(** The round trip where it holds.  In a world in which no request
    raises, a snapshot with distinct cookies and distinct storage keys,
    whose keys and values are plain text (no control character, no quote
    of either kind, no backslash), is restored as it was saved. *)
Theorem plain_session_round_trips (w : World) :
  never_raises w ->
  distinct_cookies (cookies (live_storage_state w [])) ->
  NoDup (map fst (live_session_storage w [Called GetStorageState])) ->
  plain_storage (live_session_storage w [Called GetStorageState]) ->
  restore_after_save w =
    {| cookie_jar := cookies (live_storage_state w []);
       client_storage :=
         Some (live_session_storage w [Called GetStorageState]) |}.
Proof.
  intros Hok Hcookies Hkeys Hplain.
  unfold restore_after_save, view_on_site.
  destruct (load_session_installs w
              (next_run (snd (save_session w empty_state))) _ Hok
              (save_session_writes w empty_state Hok)) as [-> ->].
  cbn [next_run context_cookies context_init_scripts trace empty_state
         storage_state session_storage cookies app Js.run_init_scripts].
  rewrite (init_script_replays _ [] Hplain).
  rewrite (replay_fresh _ [] Hkeys) by (intros k _ []).
  rewrite (store_fresh_cookies _ [] Hcookies).
  - reflexivity.
  - apply Forall_forall. intros c _. constructor.
Qed.

(** A snapshot whose sessionStorage holds only plain text comes back as
    it was saved. *)
Example plain_session_round_trip :
  restore_after_save (world_with_storage storage_plain) =
    {| cookie_jar := [sample_cookie]; client_storage := Some storage_plain |}.
Proof. reflexivity. Qed.

(** C8 (the code at two failing inputs).  The saved text is pasted
    unescaped between the quotes of a JavaScript string literal.  A value
    that is itself a JSON document is saved with escaped quotes; the
    literal turns them back into bare quotes, [JSON.parse] throws, and no
    entry is restored.  A value with a backslash comes back with the
    backslash and the letter after it read as an escape.  The cookie jar
    is restored in both cases. *)
Theorem session_round_trip_breaks :
  restore_after_save (world_with_storage storage_with_quotes) =
    {| cookie_jar := [sample_cookie]; client_storage := Some [] |} /\
  restore_after_save (world_with_storage storage_with_backslash) =
    {| cookie_jar := [sample_cookie];
       client_storage := Some [("path", "C:" ++ Js.chr 9 ++ "emp")] |}.
Proof. split; reflexivity. Qed.

(** * Further properties of the program *)

(** ** The session file and the output file *)

(** However [save_session] ends, it ends by returning, and the output
    file is what it was. *)
Lemma save_session_returns (w : World) (st : State) :
  fst (save_session w st) = Ret tt /\
  output_file (snd (save_session w st)) = output_file st.
Proof.
  unfold save_session, try_except, bind, query, request, set_session_file,
    print.
  destruct (raises w (trace st) GetStorageState); [cbn; auto|].
  cbn [trace record_event].
  destruct (raises w _ (Evaluate _)); [cbn; auto|].
  cbn [trace record_event].
  destruct (raises w _ (OpenWrite _)); [cbn; auto|].
  cbn [trace record_event].
  destruct (raises w _ (JsonDump _)); cbn; auto.
Qed.

(** [save_session] never raises, leaves the output file and the browser
    context as they were, and leaves the session file as it was, or
    incomplete, or holding exactly the snapshot it captured. *)
Theorem save_session_is_best_effort (w : World) (st : State) :
  fst (save_session w st) = Ret tt /\
  output_file (snd (save_session w st)) = output_file st /\
  same_context st (snd (save_session w st)) /\
  (session_file (snd (save_session w st)) = session_file st \/
   session_file (snd (save_session w st)) = Some Partial \/
   session_file (snd (save_session w st)) = Some (Whole (snapshot w st))).
Proof.
  unfold save_session, try_except, bind, query, request, set_session_file,
    print, same_context, snapshot.
  destruct (raises w (trace st) GetStorageState);
    [cbn; auto 6|].
  cbn [trace record_event].
  destruct (raises w _ (Evaluate _)); [cbn; auto 6|].
  cbn [trace record_event].
  destruct (raises w _ (OpenWrite _)); [cbn; auto 6|].
  cbn [trace record_event].
  destruct (raises w _ (JsonDump _)); cbn; auto 6.
Qed.

(** [load_session] never raises and never changes a file: whatever goes
    wrong while restoring is printed and the run goes on. *)
Theorem load_session_never_raises (w : World) (st : State) :
  fst (load_session w st) = Ret tt /\
  session_file (snd (load_session w st)) = session_file st /\
  output_file (snd (load_session w st)) = output_file st.
Proof.
  unfold load_session.
  destruct (session_file st) as [f|] eqn:Efile; [|cbn; auto].
  unfold try_except, json_load, bind, print, request, ret, raise,
    store_cookies, register_init_script.
  cbn [trace record_event].
  destruct (raises w _ (OpenRead _)); [cbn; auto|].
  cbn [trace record_event].
  destruct (raises w _ (JsonLoad _)); [cbn; auto|].
  destruct f as [|d]; [cbn; auto|].
  cbn [trace record_event].
  destruct (raises w _ (AddCookies _)); [cbn; auto|].
  cbn [trace record_event].
  destruct (raises w _ (AddInitScript _)); cbn; auto.
Qed.

(** Without a session file, or with one that a failed save left
    incomplete, [load_session] installs nothing: the cookie store and the
    init scripts of the context stay as they were. *)
Theorem unusable_session_file_installs_nothing (w : World) (st : State) :
  session_file st = None \/ session_file st = Some Partial ->
  same_context st (snd (load_session w st)).
Proof.
  unfold load_session, same_context.
  intros [H|H]; rewrite H; [cbn; auto|].
  unfold try_except, json_load, bind, print, request, ret, raise,
    store_cookies, register_init_script.
  cbn [trace record_event].
  destruct (raises w _ (OpenRead _)); [cbn; auto|].
  cbn [trace record_event].
  destruct (raises w _ (JsonLoad _)); cbn; auto.
Qed.

(** A context that already holds a cookie, and an incomplete file. *)
Lemma partial_session_file_is_ignored :
  same_context state_with_partial_session
    (snd (load_session world_complete state_with_partial_session)).
Proof.
  apply (unusable_session_file_installs_nothing world_complete
           state_with_partial_session).
  right. reflexivity.
Defined.

(** [save_to_json] either returns with the output file holding exactly
    the data, whatever the file held before, or raises a [RuntimeError]
    of the saving stage with the file untouched (it could not be opened)
    or incomplete (the dump broke off).  It never touches the session
    file. *)
Theorem save_to_json_outcomes (w : World) (data : list Product) (st : State) :
  (fst (save_to_json w data st) = Ret tt /\
   output_file (snd (save_to_json w data st)) = Some (Whole data)
   \/
   exists e,
     fst (save_to_json w data st) = Exc (RuntimeError Saving e) /\
     (output_file (snd (save_to_json w data st)) = output_file st \/
      output_file (snd (save_to_json w data st)) = Some Partial)) /\
  session_file (snd (save_to_json w data st)) = session_file st.
Proof.
  unfold save_to_json, try_except, bind, request, set_output_file, print,
    raise.
  destruct (raises w (trace st) (OpenWrite _)) as [e|];
    [cbn; split; [right; exists e; auto | reflexivity]|].
  cbn [trace record_event].
  destruct (raises w _ (JsonDump _)) as [e|]; cbn.
  - split; [right; exists e; auto | reflexivity].
  - split; [left; auto | reflexivity].
Qed.

Lemma same_session_steps_before_write (w : World) (fuel : nat) :
  respects same_session (steps_before_write w fuel).
Proof.
  apply respects_steps_before_write; unfold same_session; intros;
    try reflexivity; congruence.
Qed.

(** Only [save_to_json] writes the output file and only [save_session]
    writes the session file: every step before the write leaves both
    files as they were. *)
Theorem steps_before_write_leave_files (w : World) (fuel : nat) (st : State) :
  output_file (snd (steps_before_write w fuel st)) = output_file st /\
  session_file (snd (steps_before_write w fuel st)) = session_file st.
Proof.
  split.
  - apply (same_output_steps_before_write w fuel st).
  - apply (same_session_steps_before_write w fuel st).
Qed.

(** ** The orchestrator, on every path *)

(** With a working browser [main] never raises: whatever step fails, the
    exception is printed and the run ends like a successful one. *)
Theorem main_never_raises (w : World) (fuel : nat) (st : State) :
  browser_works w ->
  fst (main w fuel st) = Ret tt \/ fst (main w fuel st) = OutOfFuel.
Proof.
  intros Hworks. unfold main, bind, request.
  rewrite (Hworks (trace st) StartPlaywright) by (simpl; auto).
  unfold try_finally, launched, request.
  rewrite (Hworks _ Launch) by (simpl; auto).
  unfold try_finally, try_except, print.
  destruct (pipeline w fuel _) as [[[]|e|] st1]; [| |right; reflexivity];
    unfold request;
    rewrite (Hworks _ CloseBrowser) by (simpl; auto);
    rewrite (Hworks _ StopPlaywright) by (simpl; auto);
    left; reflexivity.
Qed.

(** A run whose disk fills up while the products are written. *)
Lemma failed_dump_run_returns :
  fst (main world_dump_fails 1 empty_state) = Ret tt \/
  fst (main world_dump_fails 1 empty_state) = OutOfFuel.
Proof.
  apply (main_never_raises world_dump_fails 1 empty_state).
  intros tr c Hin. simpl in Hin.
  destruct Hin as [<-|[<-|[<-|[<-|[]]]]]; reflexivity.
Defined.

(** The data flow of a successful run: what [main] leaves in the output
    file is exactly the list the extraction returned, whatever happens
    while the session is saved afterwards. *)
Theorem main_writes_what_was_extracted
  (w : World) (fuel : nat) (st st1 : State) (products : list Product) :
  browser_works w ->
  output_writable w ->
  steps_before_write w fuel (after_launch st) = (Ret products, st1) ->
  fst (main w fuel st) = Ret tt /\
  output_file (snd (main w fuel st)) = Some (Whole products).
Proof.
  intros Hworks Hwrite Hsteps. unfold main, bind, request.
  rewrite (Hworks (trace st) StartPlaywright) by (simpl; auto).
  unfold try_finally, launched, request.
  rewrite (Hworks _ Launch) by (simpl; auto).
  unfold try_finally, try_except, pipeline, bind.
  unfold after_launch in Hsteps. rewrite Hsteps.
  unfold save_to_json, try_except, bind, request, set_output_file, print.
  rewrite (proj1 (Hwrite _)). cbn [trace record_event].
  rewrite (proj2 (Hwrite _)).
  match goal with
  | |- context [save_session w ?s] =>
      destruct (save_session_returns w s) as [Hr Hout];
      destruct (save_session w s) as [r st2]
  end.
  cbn [fst snd] in Hr, Hout. subst r.
  rewrite (Hworks _ CloseBrowser) by (simpl; auto).
  rewrite (Hworks _ StopPlaywright) by (simpl; auto).
  cbn. split; [reflexivity | exact Hout].
Qed.

(** Three rows present, three announced: three records on disk. *)
Lemma complete_run_writes_three :
  fst (main world_signed_in 1 empty_state) = Ret tt /\
  output_file (snd (main world_signed_in 1 empty_state))
  = Some (Whole (repeat
       {| Product_Name := "Velvet Matte"; ID := "48213"; Shade := "";
          Details := ""; Guarantee := "" |} 3)).
Proof.
  apply (main_writes_what_was_extracted world_signed_in 1 empty_state
           (snd (steps_before_write world_signed_in 1 (after_launch empty_state)))).
  - intros tr c _. reflexivity.
  - intros tr. split; reflexivity.
  - reflexivity.
Defined.

(** ** Login, navigation and extraction: what they raise *)

Lemma wrap_errors_outcome {A} (s : stage) (m1 : message) (m2 : exn -> message)
      (body : M A) (st : State) :
  (fst (wrap_errors s m1 m2 body st) = fst (body st) /\
   snd (wrap_errors s m1 m2 body st) = snd (body st) /\
   forall e, fst (body st) <> Exc e)
  \/
  exists e e' m,
    fst (body st) = Exc e /\
    fst (wrap_errors s m1 m2 body st) = Exc e' /\
    stage_error s e' /\
    snd (wrap_errors s m1 m2 body st) = record_event (Printed m) (snd (body st)).
Proof.
  unfold wrap_errors, try_except, stage_error.
  destruct (body st) as [[a|e|] st1]; cbn [fst snd].
  - left. repeat split; intros; discriminate.
  - right. exists e.
    destruct e; unfold bind, print, raise; cbn [fst snd]; eauto 8.
  - left. repeat split; intros; discriminate.
Qed.

(** A missing credential ([None] or the empty string) makes
    [login_if_needed] raise [ValueError] before it issues any request;
    with both credentials present, every exception it raises is a
    [RuntimeError] of the login stage.  [navigate_to_product_table] and
    [extract_products] raise nothing but the [RuntimeError] of their
    stage. *)
Theorem page_steps_raise_stage_errors (w : World) (fuel : nat) (st : State) :
  (truthy (USERNAME w) && truthy (PASSWORD w) = false ->
   login_if_needed w st = (Exc ValueError, st)) /\
  (truthy (USERNAME w) && truthy (PASSWORD w) = true ->
   forall e, fst (login_if_needed w st) = Exc e -> stage_error Login e) /\
  (forall e, fst (navigate_to_product_table w st) = Exc e ->
             stage_error Navigation e) /\
  (forall e, fst (extract_products w fuel st) = Exc e ->
             stage_error Extraction e).
Proof.
  assert (forall A (s : stage) m1 m2 (body : M A) e,
            fst (wrap_errors s m1 m2 body st) = Exc e -> stage_error s e)
    as Hwrap.
  { intros A s m1 m2 body e He.
    destruct (wrap_errors_outcome s m1 m2 body st)
      as [[H1 [_ H3]]|[e0 [e' [m [_ [H2 [H3 _]]]]]]].
    - rewrite He in H1. symmetry in H1. now elim (H3 e).
    - rewrite He in H2. now injection H2 as <-. }
  unfold login_if_needed.
  destruct (truthy (USERNAME w)), (truthy (PASSWORD w)); cbn [negb orb andb];
    (split; [intros H; try discriminate; reflexivity|]);
    (split; [intros H; try discriminate; intros e; apply Hwrap|]);
    (split; intros e; [unfold navigate_to_product_table
                      | unfold extract_products]; apply Hwrap).
Qed.

(** An empty password counts as a missing one. *)
Lemma missing_password_is_fatal_before_any_request :
  login_if_needed
    {| USERNAME := Some "user@example.com"; PASSWORD := Some EmptyString;
       raises := fun _ _ => None; sign_in_visible := fun _ => true;
       summary_text := fun _ => EmptyString; rows_now := fun _ => [];
       live_storage_state := fun _ => {| cookies := []; origins := [] |};
       live_session_storage := fun _ => [] |} empty_state
  = (Exc ValueError, empty_state).
Proof.
  apply (page_steps_raise_stage_errors
           {| USERNAME := Some "user@example.com"; PASSWORD := Some EmptyString;
              raises := fun _ _ => None; sign_in_visible := fun _ => true;
              summary_text := fun _ => EmptyString; rows_now := fun _ => [];
              live_storage_state := fun _ => {| cookies := []; origins := [] |};
              live_session_storage := fun _ => [] |} 0 empty_state).
  reflexivity.
Defined.

Lemma requests_of_app (a b : list event) :
  requests_of (a ++ b) = (requests_of a ++ requests_of b)%list.
Proof.
  induction a as [|[c|m] a IH]; cbn [requests_of app];
    [reflexivity | now rewrite IH | exact IH].
Qed.

Ltac tally :=
  cbn [trace record_event fst snd];
  rewrite ?count_app, ?count_cons, ?count_nil;
  cbn [is_form_action is_growth_trigger is_close is_stop];
  lia.

(** When the sign-in heading is reported as not visible, the login is
    skipped entirely: [login_if_needed] fills no field and clicks
    nothing, whether it returns or raises. *)
Theorem login_skipped_when_signed_in (w : World) (st : State) :
  sign_in_visible w (login_history st) = false ->
  count is_form_action (trace (snd (login_if_needed w st)))
  = count is_form_action (trace st).
Proof.
  intros Hhidden. unfold login_if_needed.
  destruct (negb (truthy (USERNAME w)) || negb (truthy (PASSWORD w)));
    [reflexivity|].
  match goal with
  | |- context [wrap_errors ?s ?m1 ?m2 ?b] =>
      set (body := b);
      destruct (wrap_errors_outcome s m1 m2 body st)
        as [[_ [-> _]]|[e [e' [m [_ [_ [_ ->]]]]]]]
  end;
    assert (count is_form_action (trace (snd (body st)))
            = count is_form_action (trace st)) as Hbody;
    try (unfold body, bind, print, request, query;
         cbn [trace record_event];
         destruct (raises w _ (Goto _ _)); [tally|];
         fold (login_history st);
         destruct (raises w (login_history st) (IsVisible _)); [tally|];
         rewrite Hhidden; tally).
Qed.

(** A session that is still signed in. *)
Lemma signed_in_session_skips_login :
  count is_form_action (trace (snd (login_if_needed world_signed_in empty_state)))
  = count is_form_action (trace empty_state).
Proof.
  apply (login_skipped_when_signed_in world_signed_in empty_state).
  reflexivity.
Defined.

(** [navigate_to_product_table] is fail-stop.  Either it returns, every
    one of its seven requests having returned at the history at which it
    was issued; or one request raised at the history at which it was
    issued, every request before it had returned, the exception raised is
    the one the handlers make of that request's, and the history ends
    with that request and one printed line: nothing is requested after
    it. *)
Theorem navigation_is_fail_stop (w : World) (st : State) :
  (fst (navigate_to_product_table w st) = Ret tt /\
   (forall k c, nth_error navigation_requests k = Some c ->
                raises w (navigation_history st k) c = None) /\
   trace (snd (navigate_to_product_table w st))
   = (navigation_history st 7 ++ [Printed ReachedTable])%list)
  \/
  (exists k c e m,
     nth_error navigation_requests k = Some c /\
     (forall j c', (j < k)%nat -> nth_error navigation_requests j = Some c' ->
                   raises w (navigation_history st j) c' = None) /\
     raises w (navigation_history st k) c = Some e /\
     fst (navigate_to_product_table w st) = Exc (wrapped Navigation e) /\
     trace (snd (navigate_to_product_table w st))
     = (navigation_history st (S k) ++ [Printed m])%list).
Proof.
  unfold navigate_to_product_table.
  match goal with
  | |- context [wrap_errors ?s ?m1 ?m2 ?b] => set (body := b)
  end.
  assert ((body st = (Ret tt, snd (body st)) /\
           (forall k c, nth_error navigation_requests k = Some c ->
                        raises w (navigation_history st k) c = None) /\
           trace (snd (body st))
           = (navigation_history st 7 ++ [Printed ReachedTable])%list)
          \/
          (exists k c e,
             nth_error navigation_requests k = Some c /\
             (forall j c', (j < k)%nat ->
                           nth_error navigation_requests j = Some c' ->
                           raises w (navigation_history st j) c' = None) /\
             raises w (navigation_history st k) c = Some e /\
             body st = (Exc e, snd (body st)) /\
             trace (snd (body st)) = navigation_history st (S k)))
    as [[Hret [Hall Htrace]]|[k [c [e [Hnth [Hbefore [Hraise [Hexc Htrace]]]]]]]].
  { unfold body, bind, print, request. cbn [trace record_event].
    repeat match goal with
    | |- context [raises w ?tr ?c] =>
        let E := fresh "E" in
        destruct (raises w tr c) eqn:E; cbn [trace record_event fst snd]
    end;
    repeat match goal with
    | E : raises _ _ _ = _ |- _ =>
        progress (rewrite <- ?app_assoc in E; cbn [app] in E)
    end;
    match goal with
    | E7 : raises _ _ (WaitForSelector _ 15000) = Some _ |- _ => right; exists 6%nat
    | E6 : raises _ _ (Click "//h3[contains(text(),'Full Catalog')]") = Some _ |- _ => right; exists 5%nat
    | E5 : raises _ _ (Click "//h3[contains(text(),'Products')]") = Some _ |- _ => right; exists 4%nat
    | E4 : raises _ _ (Click "//h3[contains(text(),'Inventory')]") = Some _ |- _ => right; exists 3%nat
    | E3 : raises _ _ (Click "//button[contains(text(),'Dashboard')]") = Some _ |- _ => right; exists 2%nat
    | E2 : raises _ _ (Click "//button[contains(text(),'Launch Challenge')]") = Some _ |- _ => right; exists 1%nat
    | E1 : raises _ _ (WaitForSelector _ 10000) = Some _ |- _ => right; exists 0%nat
    | _ => left
    end.
    all: try (eexists _, _; split; [reflexivity|]).
    all: repeat split.
    all: try (intros j c' Hj Hc'; do 7 (try destruct j as [|j]); try lia;
              cbn [nth_error navigation_requests] in Hc';
              injection Hc' as <-).
    all: try (intros k c Hc; do 8 (try destruct k as [|k]);
              cbn [nth_error navigation_requests] in Hc;
              try discriminate; injection Hc as <-).
    all: unfold navigation_history;
         cbn [firstn map navigation_requests app];
         rewrite <- ?app_assoc; cbn [app];
         first [eassumption | reflexivity]. }
  - left. unfold wrap_errors, try_except. rewrite Hret. cbn [fst snd].
    repeat split; assumption.
  - right.
    destruct (wrap_errors_wraps Navigation TimeoutNavigating ErrorDuringNavigation
                body st (snd (body st)) e Hexc) as [m Hrun].
    exists k, c, e, m. rewrite Hrun. cbn [fst snd trace record_event].
    rewrite Htrace. repeat split; assumption.
Qed.

(** ** The growth loop, further *)

(** An empty page under a positive expected total: the first pass reads no
    rows, [rows[-1]] raises [IndexError], and [extract_products] raises
    instead of returning an empty list; no hover, scroll or growth-wait
    has been issued. *)
Theorem empty_page_raises (w : World) (fuel : nat) (st : State) (total : Z) :
  raises w (trace st)
    (WaitForSelector "//h3[contains(text(),'Product Inventory')]" 10000) = None ->
  raises w (summary_history st)
    (TextContent "//div[contains(text(),'Showing ')]") = None ->
  parse_total (summary_text w (summary_history st)) = Ret total ->
  0 < total ->
  raises w (first_read_history st) (AllMatching "div.grid>div.rounded-lg") = None ->
  rows_now w (first_read_history st) = [] ->
  fst (extract_products w (S fuel) st)
  = Exc (RuntimeError Extraction IndexError) /\
  count is_growth_trigger (trace (snd (extract_products w (S fuel) st)))
  = count is_growth_trigger (trace st).
Proof.
  intros H1 H2 H3 H4 H5 H6.
  unfold first_read_history, summary_history in *.
  cbn [trace record_event] in *.
  unfold extract_products, wrap_errors, try_except, bind, request, print,
    query, lift.
  rewrite H1. cbn [trace record_event]. rewrite H2, H3.
  cbn [collect].
  destruct (Z.ltb_spec 0 total); [|lia].
  unfold bind, query. cbn [trace record_event].
  rewrite H5, H6. cbn [Py.len List.length Z.of_nat].
  change (0 =? -1) with false. cbv iota.
  destruct (Z.ltb_spec 0 total); [|lia].
  unfold trigger_growth, bind, lift, last_index. cbn [List.rev].
  unfold raise. cbn [fst snd]. split; [reflexivity|]. tally.
Qed.

(** Twelve products announced, none shown. *)
Lemma empty_page_of_twelve_raises :
  fst (extract_products world_empty_page 1 empty_state)
  = Exc (RuntimeError Extraction IndexError) /\
  count is_growth_trigger
        (trace (snd (extract_products world_empty_page 1 empty_state)))
  = count is_growth_trigger (trace empty_state).
Proof.
  apply (empty_page_raises world_empty_page 0 empty_state 12);
    reflexivity.
Defined.

Lemma trigger_growth_outcome (w : World) (rows : list RawItem) (n : Z) (st : State) :
  fst (trigger_growth w rows n st) <> OutOfFuel /\
  exists evs, trace (snd (trigger_growth w rows n st)) = (trace st ++ evs)%list.
Proof.
  unfold trigger_growth, bind, lift, request, last_index.
  destruct (List.rev rows); cbn [fst snd];
    [split; [discriminate | exists []; now rewrite app_nil_r]|].
  destruct (raises w (trace st) (Hover _)); cbn [fst snd trace record_event];
    [split; [discriminate | eauto]|].
  destruct (raises w _ (MouseWheel _ _)); cbn [fst snd trace record_event];
    [split; [discriminate | rewrite <- app_assoc; eauto]|].
  destruct (raises w _ (WaitForGrowth _ _)); cbn [fst snd trace record_event];
    (split; [discriminate | rewrite <- !app_assoc; eauto]).
Qed.

(** On a page that only grows, every continuing pass has read strictly
    more rows than the one before, so [total - prev_count] passes are
    enough. *)
Lemma collect_within_fuel (w : World) :
  grows_only w ->
  forall fuel total prev n rows st,
    prev <= n ->
    (forall later, prev <= Py.len (rows_now w (trace st ++ later)%list)) ->
    (Z.to_nat (total - prev) <= fuel)%nat ->
    fst (collect w fuel total prev n rows st) <> OutOfFuel.
Proof.
  intros Hgrow. induction fuel as [|fuel IH];
    intros total prev n rows st Hn Hprev Hfuel; cbn [collect].
  - destruct (Z.ltb_spec n total); [lia | discriminate].
  - destruct (Z.ltb_spec n total); [|discriminate].
    unfold bind, query.
    destruct (raises w (trace st) (AllMatching _)); [discriminate|].
    set (rows' := rows_now w (trace st)).
    assert (prev <= Py.len rows') as Hge.
    { specialize (Hprev []). now rewrite app_nil_r in Hprev. }
    destruct (Z.eqb_spec (Py.len rows') prev); [discriminate|].
    destruct (Z.ltb_spec (Py.len rows') total).
    + destruct (trigger_growth_outcome w rows' (Py.len rows')
                  (record_event (Called (AllMatching "div.grid>div.rounded-lg")) st))
        as [Hnot [evs Hevs]].
      destruct (trigger_growth w rows' (Py.len rows') _) as [[[]|e|] st2];
        cbn [fst snd] in *; [|discriminate|now elim Hnot].
      apply IH; [lia| |lia].
      intros later. rewrite Hevs. cbn [trace record_event].
      rewrite <- !app_assoc. apply Hgrow.
    + unfold ret at 1. rewrite collect_skipped by lia. discriminate.
Qed.

(** Termination.  On a page that only grows, the loop of
    [extract_products] ends within [total_count + 1] passes: it returns
    or raises, whatever the requests do. *)
Theorem growth_loop_terminates (w : World) (total : Z) (st : State) :
  grows_only w ->
  (exists rows,
     fst (collect w (Z.to_nat (total + 1)) total (-1) 0 None st) = Ret rows)
  \/
  (exists e,
     fst (collect w (Z.to_nat (total + 1)) total (-1) 0 None st) = Exc e).
Proof.
  intros Hgrow.
  pose proof (collect_within_fuel w Hgrow (Z.to_nat (total + 1)) total (-1) 0
                None st) as H.
  destruct (fst (collect w _ total (-1) 0 None st)) as [rows|e|].
  - left. eauto.
  - right. eauto.
  - elim H; [lia | | replace (total - -1) with (total + 1) by lia; lia
            | reflexivity].
    intros later. unfold Py.len. lia.
Qed.

(** Three rows shown, ten announced: within eleven passes. *)
Lemma stalled_page_terminates :
  (exists rows,
     fst (collect world_stalled (Z.to_nat (10 + 1)) 10 (-1) 0 None empty_state)
     = Ret rows)
  \/
  (exists e,
     fst (collect world_stalled (Z.to_nat (10 + 1)) 10 (-1) 0 None empty_state)
     = Exc e).
Proof.
  apply (growth_loop_terminates world_stalled 10 empty_state).
  intros tr later. apply Z.le_refl.
Defined.

(** ** Parsing a list of rows *)

Lemma field_never_out_of_fuel (inner : list string) (i : nat) (sep : string) :
  field inner i sep <> OutOfFuel.
Proof.
  unfold field, labeled_text, subscript.
  destruct (Z.of_nat i <? Py.len inner); [|discriminate].
  destruct (nth_error inner i); [|discriminate].
  destruct (nth_error (Py.split sep s) 1); discriminate.
Qed.

Lemma parse_item_never_out_of_fuel (item : RawItem) :
  parse_item item <> OutOfFuel.
Proof.
  unfold parse_item.
  pose proof (field_never_out_of_fuel (inner_elements item) 0 ":").
  pose proof (field_never_out_of_fuel (inner_elements item) 1 "Shade").
  pose proof (field_never_out_of_fuel (inner_elements item) 2 "Details").
  pose proof (field_never_out_of_fuel (inner_elements item) 3 "Guarantee").
  destruct (field _ 0 _); try discriminate; try congruence.
  destruct (field _ 1 _); try discriminate; try congruence.
  destruct (field _ 2 _); try discriminate; try congruence.
  destruct (field _ 3 _); try discriminate; congruence.
Qed.

(** The records come out one per row, in the order of the rows, with no
    row dropped and none merged: the list is returned exactly when every
    row parses, and its k-th record is the parse of the k-th row. *)
Theorem parse_items_keeps_order (rows : list RawItem) (ps : list Product) :
  parse_items rows = Ret ps <->
  Forall2 (fun item p => parse_item item = Ret p) rows ps.
Proof.
  revert ps. induction rows as [|item rows IH]; intros ps; cbn [parse_items].
  - split.
    + intros H. injection H as <-. constructor.
    + intros H. inversion H. reflexivity.
  - split.
    + destruct (parse_item item) as [p| |] eqn:Ep; try discriminate.
      destruct (parse_items rows) as [ps'| |]; try discriminate.
      intros H. injection H as <-. constructor; [exact Ep|]. now apply IH.
    + intros H. inversion H as [|x p l ps' Hp Hrest]; subst.
      rewrite Hp. apply IH in Hrest. now rewrite Hrest.
Qed.

(** One row that does not parse fails the whole list: [parse_items]
    raises exactly when some row raises, and then no record of any other
    row is returned. *)
Theorem parse_items_raises_with_any_row (rows : list RawItem) :
  (exists e, parse_items rows = Exc e) <->
  Exists (fun item => exists e, parse_item item = Exc e) rows.
Proof.
  induction rows as [|item rows IH]; cbn [parse_items].
  - split; [intros [e H]; discriminate | intros H; inversion H].
  - pose proof (parse_item_never_out_of_fuel item) as Hfuel.
    destruct (parse_item item) as [p|e|] eqn:Ep; [| |now elim Hfuel].
    + split.
      * intros [e H]. apply Exists_cons_tl. apply IH.
        destruct (parse_items rows); try discriminate. eauto.
      * intros H. inversion H as [x l [e He]|x l Hl]; subst;
          [congruence|].
        apply IH in Hl as [e He]. rewrite He. eauto.
    + split; [intros _; apply Exists_cons_hd; eauto | eauto].
Qed.

(** ** What a parsed record looks like *)

Lemma rev_onto_append (s acc : string) :
  Py.rev_onto s acc = Py.rev_onto s EmptyString ++ acc.
Proof.
  revert acc. induction s as [|c s IH]; intros acc; cbn [Py.rev_onto].
  - reflexivity.
  - rewrite (IH (String c acc)), (IH (String c EmptyString)).
    now rewrite append_assoc.
Qed.

Lemma rev_cons (c : ascii) (s : string) :
  Py.rev (String c s) = Py.rev s ++ String c EmptyString.
Proof. unfold Py.rev. cbn [Py.rev_onto]. apply rev_onto_append. Qed.

Lemma rev_append (a b : string) : Py.rev (a ++ b) = Py.rev b ++ Py.rev a.
Proof.
  induction a as [|c a IH].
  - cbn [append]. now rewrite append_empty_r.
  - change (String c a ++ b) with (String c (a ++ b)).
    now rewrite !rev_cons, IH, append_assoc.
Qed.

Lemma rev_involutive (s : string) : Py.rev (Py.rev s) = s.
Proof.
  induction s as [|c s IH]; [reflexivity|].
  now rewrite rev_cons, rev_append, IH.
Qed.

Lemma lstrip_idempotent (s : string) : Py.lstrip (Py.lstrip s) = Py.lstrip s.
Proof.
  induction s as [|c s IH]; [reflexivity|].
  cbn [Py.lstrip]. destruct (Py.is_space c) eqn:E; [exact IH|].
  cbn [Py.lstrip]. now rewrite E.
Qed.

(** Stripping on the left cannot eat a trailing character that is not
    white space. *)
Lemma lstrip_keeps_last (x : string) (c : ascii) :
  Py.is_space c = false ->
  exists u, Py.lstrip (x ++ String c EmptyString) = u ++ String c EmptyString.
Proof.
  intros Hc. induction x as [|d x [u IH]].
  - exists EmptyString. cbn. now rewrite Hc.
  - change (String d x ++ String c EmptyString)
      with (String d (x ++ String c EmptyString)).
    cbn [Py.lstrip]. destruct (Py.is_space d).
    + eauto.
    + exists (String d x). reflexivity.
Qed.

Lemma rstrip_keeps_clean_start (t : string) :
  Py.lstrip t = t -> Py.lstrip (Py.rstrip t) = Py.rstrip t.
Proof.
  destruct t as [|c t]; [reflexivity|].
  cbn [Py.lstrip]. destruct (Py.is_space c) eqn:Hc.
  - intros H. exfalso.
    assert (String.length (Py.lstrip t) <= String.length t)%nat as Hlen.
    { clear. induction t as [|d t IH]; cbn [Py.lstrip]; [apply Nat.le_refl|].
      destruct (Py.is_space d); cbn [String.length]; lia. }
    rewrite H in Hlen. cbn [String.length] in Hlen. lia.
  - intros _. unfold Py.rstrip. rewrite rev_cons.
    destruct (lstrip_keeps_last (Py.rev t) c Hc) as [u ->].
    rewrite rev_append. cbn [Py.rev Py.rev_onto append Py.lstrip].
    now rewrite Hc.
Qed.

(** [strip] is idempotent: what it returns has no white space left at
    either end. *)
Lemma strip_idempotent (s : string) : Py.strip (Py.strip s) = Py.strip s.
Proof.
  unfold Py.strip.
  rewrite (rstrip_keeps_clean_start _ (lstrip_idempotent s)).
  unfold Py.rstrip. now rewrite rev_involutive, lstrip_idempotent.
Qed.

(** Every field of a parsed record is trimmed: stripping the name, the
    id, the shade, the details or the guarantee again changes nothing. *)
Theorem parsed_fields_are_trimmed (item : RawItem) (p : Product) :
  parse_item item = Ret p ->
  Py.strip (Product_Name p) = Product_Name p /\
  Forall (fun f => Py.strip f = f) (labeled_fields p).
Proof.
  intros H. apply parse_item_fields in H.
  destruct H as [H0 [H1 [H2 [H3 Hn]]]].
  assert (forall i sep v, field (inner_elements item) i sep = Ret v ->
                          Py.strip v = v) as Hfield.
  { intros i sep v. unfold field, labeled_text, subscript.
    destruct (Z.of_nat i <? Py.len (inner_elements item)).
    - destruct (nth_error (inner_elements item) i); [|discriminate].
      destruct (nth_error (Py.split sep s) 1); [|discriminate].
      intros E. injection E as <-. apply strip_idempotent.
    - intros E. injection E as <-. reflexivity. }
  split; [rewrite Hn; apply strip_idempotent|].
  unfold labeled_fields. repeat constructor; eauto.
Qed.

(** The record of the sample item. *)
Lemma sample_record_is_trimmed :
  Py.strip "Velvet Matte" = "Velvet Matte" /\
  Forall (fun f => Py.strip f = f) ["48213"; ""; ""; ""].
Proof.
  apply (parsed_fields_are_trimmed item_plain_id
           {| Product_Name := "Velvet Matte"; ID := "48213"; Shade := "";
              Details := ""; Guarantee := "" |}).
  reflexivity.
Defined.

Lemma has_char_append (c : ascii) (a b : string) :
  Py.has_char c (a ++ b) = Py.has_char c a || Py.has_char c b.
Proof.
  induction a as [|d a IH]; [reflexivity|].
  cbn [append Py.has_char]. now rewrite IH, orb_assoc.
Qed.

Lemma has_char_rev (c : ascii) (s : string) :
  Py.has_char c (Py.rev s) = Py.has_char c s.
Proof.
  induction s as [|d s IH]; [reflexivity|].
  rewrite rev_cons, has_char_append, IH. cbn [Py.has_char].
  rewrite orb_false_r. apply orb_comm.
Qed.

Lemma has_char_lstrip (c : ascii) (s : string) :
  Py.has_char c s = false -> Py.has_char c (Py.lstrip s) = false.
Proof.
  induction s as [|d s IH]; [reflexivity|].
  cbn [Py.lstrip]. destruct (Py.is_space d); [|auto].
  cbn [Py.has_char]. intros H. apply orb_false_elim in H as [_ H]. auto.
Qed.

Lemma has_char_strip (c : ascii) (s : string) :
  Py.has_char c s = false -> Py.has_char c (Py.strip s) = false.
Proof.
  intros H. unfold Py.strip, Py.rstrip.
  rewrite has_char_rev. apply has_char_lstrip.
  rewrite has_char_rev. now apply has_char_lstrip.
Qed.

Lemma cut_char_before (c : ascii) (s a r : string) :
  Py.cut (String c EmptyString) s = Some (a, r) -> Py.has_char c a = false.
Proof.
  revert a r. induction s as [|d s IH]; intros a r; rewrite cut_unfold.
  - cbn. discriminate.
  - rewrite prefix_char. destruct (Ascii.eqb c d) eqn:E.
    + intros H. injection H as <- _. reflexivity.
    + destruct (Py.cut _ s) as [[a' r']|]; [|discriminate].
      intros H. injection H as <- _. cbn [Py.has_char].
      rewrite E. cbn [orb]. eapply IH. reflexivity.
Qed.

Lemma cut_char_absent (c : ascii) (s : string) :
  Py.cut (String c EmptyString) s = None -> Py.has_char c s = false.
Proof.
  induction s as [|d s IH]; [reflexivity|].
  rewrite cut_unfold, prefix_char. destruct (Ascii.eqb c d) eqn:E;
    [discriminate|].
  destruct (Py.cut _ s) as [[a r]|]; [discriminate|].
  intros _. cbn [Py.has_char]. rewrite E. now apply IH.
Qed.

(** The id of a parsed record never contains a colon, whatever the
    identifier fragment was. *)
Theorem parsed_id_has_no_colon (item : RawItem) (p : Product) :
  parse_item item = Ret p -> Py.has_char ":" (ID p) = false.
Proof.
  intros H. apply parse_item_fields in H. destruct H as [H0 _].
  unfold field in H0.
  destruct (Z.of_nat 0 <? Py.len (inner_elements item)).
  - unfold subscript in H0.
    destruct (nth_error (inner_elements item) 0) as [text|]; [|discriminate].
    rewrite labeled_text_cut in H0 by discriminate.
    destruct (Py.cut ":" text) as [[a r]|]; [|discriminate].
    injection H0 as <-. apply has_char_strip.
    destruct (Py.cut ":" r) as [[b r2]|] eqn:E.
    + exact (cut_char_before _ _ _ _ E).
    + exact (cut_char_absent _ _ E).
  - injection H0 as <-. reflexivity.
Qed.

(** The fragment with two colons. *)
Lemma id_48_has_no_colon : Py.has_char ":" "48" = false.
Proof.
  apply (parsed_id_has_no_colon item_two_colons
           {| Product_Name := "Velvet Matte"; ID := "48"; Shade := "";
              Details := ""; Guarantee := "" |}).
  reflexivity.
Defined.

(** ** Restoring a session, further *)

(** The cookie half of the round trip holds for every snapshot: when no
    request raises and the saved cookies are distinct, the restored
    cookie jar is the saved one, whatever the sessionStorage held. *)
Theorem cookies_round_trip (w : World) :
  never_raises w ->
  distinct_cookies (cookies (live_storage_state w [])) ->
  cookie_jar (restore_after_save w) = cookies (live_storage_state w []).
Proof.
  intros Hok Hcookies. unfold restore_after_save, view_on_site.
  cbn [cookie_jar].
  destruct (load_session_installs w
              (next_run (snd (save_session w empty_state))) _ Hok
              (save_session_writes w empty_state Hok)) as [-> _].
  cbn [next_run context_cookies trace empty_state storage_state cookies app].
  rewrite (store_fresh_cookies _ [] Hcookies); [reflexivity|].
  apply Forall_forall. intros c _. constructor.
Qed.

(** The snapshot whose stored value is a JSON document. *)
Lemma cookies_survive_quoted_storage :
  cookie_jar (restore_after_save (world_with_storage storage_with_quotes))
  = cookies (live_storage_state (world_with_storage storage_with_quotes) []).
Proof.
  apply (cookies_round_trip (world_with_storage storage_with_quotes)).
  - intros tr c. reflexivity.
  - repeat constructor.
Defined.

(** The two entries [theme] and [tab], and the cookie [sid]. *)
Lemma plain_snapshot_round_trips :
  restore_after_save (world_with_storage storage_plain) =
    {| cookie_jar :=
         cookies (live_storage_state (world_with_storage storage_plain) []);
       client_storage :=
         Some (live_session_storage (world_with_storage storage_plain)
                 [Called GetStorageState]) |}.
Proof.
  apply (plain_session_round_trips (world_with_storage storage_plain)).
  - intros tr c. reflexivity.
  - repeat constructor.
  - cbn. repeat constructor; cbn; intuition discriminate.
  - repeat constructor.
Defined.

(** ** Termination of the extraction *)

Lemma parse_total_never_out_of_fuel (text : string) :
  parse_total text <> OutOfFuel.
Proof.
  unfold parse_total, subscript.
  destruct (nth_error (Py.split "of" text) 1); [|discriminate].
  destruct (nth_error (Py.split "products" s) 0); [|discriminate].
  destruct (Py.int (Py.strip s0)); discriminate.
Qed.

Lemma parse_items_never_out_of_fuel (rows : list RawItem) :
  parse_items rows <> OutOfFuel.
Proof.
  induction rows as [|item rows IH]; cbn [parse_items]; [discriminate|].
  pose proof (parse_item_never_out_of_fuel item) as H.
  destruct (parse_item item); [|discriminate|congruence].
  destruct (parse_items rows); [discriminate|discriminate|congruence].
Qed.

Lemma extract_products_within_fuel (w : World) (fuel : nat) (st : State) :
  grows_only w ->
  (forall total,
      parse_total (summary_text w (summary_history st)) = Ret total ->
      (Z.to_nat (total + 1) <= fuel)%nat) ->
  fst (extract_products w fuel st) <> OutOfFuel.
Proof.
  intros Hgrow Hfuel. unfold extract_products.
  match goal with
  | |- context [wrap_errors ?s ?m1 ?m2 ?b] =>
      set (body := b);
      destruct (wrap_errors_outcome s m1 m2 body st)
        as [[-> _]|[e0 [e' [m [_ [-> _]]]]]]; [|discriminate]
  end.
  unfold body, bind, request, print, query, lift.
  destruct (raises w (trace st) _); [discriminate|].
  fold (summary_history st).
  destruct (raises w (summary_history st) _); [discriminate|].
  pose proof (parse_total_never_out_of_fuel
                (summary_text w (summary_history st))) as Htotal.
  destruct (parse_total (summary_text w (summary_history st)))
    as [total| |] eqn:Et; [|discriminate|congruence].
  lazymatch goal with
  | |- context [collect w fuel total (-1) 0 None ?s] =>
      pose proof (collect_within_fuel w Hgrow fuel total (-1) 0 None s)
        as Hloop;
      destruct (collect w fuel total (-1) 0 None s) as [[rows|e|] st4]
  end; [|cbn [fst]; discriminate|].
  - unfold local, ret, raise.
    destruct rows as [rows|]; [|discriminate].
    pose proof (parse_items_never_out_of_fuel rows) as Hitems.
    destruct (parse_items rows); [discriminate|discriminate|congruence].
  - cbn [fst] in Hloop. exfalso. apply Hloop; [lia| | |reflexivity].
    + intros later. unfold Py.len. lia.
    + specialize (Hfuel total eq_refl).
      replace (total - -1) with (total + 1) by lia. exact Hfuel.
Qed.

(** On a page that only grows, [extract_products] returns or raises as
    soon as it is given one pass more than the expected total it parses:
    the loop cannot run on for ever. *)
Theorem extraction_terminates (w : World) (fuel : nat) (st : State) :
  grows_only w ->
  (forall total,
      parse_total (summary_text w (summary_history st)) = Ret total ->
      (Z.to_nat (total + 1) <= fuel)%nat) ->
  (exists products, fst (extract_products w fuel st) = Ret products) \/
  (exists e, fst (extract_products w fuel st) = Exc e).
Proof.
  intros Hgrow Hfuel.
  pose proof (extract_products_within_fuel w fuel st Hgrow Hfuel) as H.
  destruct (fst (extract_products w fuel st));
    [left; eauto | right; eauto | now elim H].
Qed.

(** Three rows shown for ever, ten announced, eleven passes allowed. *)
Lemma stalled_extraction_terminates :
  (exists products,
     fst (extract_products world_stalled 11 empty_state) = Ret products) \/
  (exists e, fst (extract_products world_stalled 11 empty_state) = Exc e).
Proof.
  apply (extraction_terminates world_stalled 11 empty_state).
  - intros tr later. apply Z.le_refl.
  - intros total H. vm_compute in H. injection H as <-. vm_compute. lia.
Defined.

(** ** Where the summary number is read from *)

Lemma cut_of_first (a r : string) :
  Py.contains "of" a = false ->
  Py.cut "of" (a ++ "of" ++ r) = Some (a, r).
Proof.
  unfold Py.contains. induction a as [|c a IH].
  - intros _. change (EmptyString ++ "of" ++ r) with ("of" ++ r).
    now rewrite cut_unfold, (prefix_append "of" r), drop_append.
  - change (String c a ++ "of" ++ r) with (String c (a ++ "of" ++ r)).
    rewrite (cut_unfold "of" (String c a)),
            (cut_unfold "of" (String c (a ++ "of" ++ r))).
    destruct (prefix "of" (String c a)) eqn:Ep; [discriminate|].
    assert (prefix "of" (String c (a ++ "of" ++ r)) = false) as ->.
    { revert Ep. cbn [prefix]. destruct (ascii_dec "o" c); [|reflexivity].
      destruct a as [|d a]; cbn [append prefix].
      - intros _. destruct (ascii_dec "f" "o"); [discriminate|reflexivity].
      - destruct (ascii_dec "f" d); [|reflexivity].
        destruct a; discriminate. }
    destruct (Py.cut "of" a) as [[x y]|]; [discriminate|].
    intros _. now rewrite IH.
Qed.

Lemma cut_products_first (b tail : string) :
  Py.has_char "p" b = false ->
  Py.cut "products" (b ++ "products" ++ tail) = Some (b, tail).
Proof.
  induction b as [|c b IH].
  - intros _.
    change (EmptyString ++ "products" ++ tail) with ("products" ++ tail).
    now rewrite cut_unfold, (prefix_append "products" tail), drop_append.
  - cbn [Py.has_char]. intros H. apply orb_false_elim in H as [Hc Hb].
    change (String c b ++ "products" ++ tail)
      with (String c (b ++ "products" ++ tail)).
    rewrite cut_unfold.
    assert (prefix "products" (String c (b ++ "products" ++ tail)) = false)
      as ->.
    { cbn [prefix]. destruct (ascii_dec "p" c) as [<-|]; [|reflexivity].
      discriminate. }
    now rewrite (IH Hb).
Qed.

(** The expected total is the integer that stands between the ["of"] of
    the summary and the following ["products"]: the text before the
    ["of"] and after the ["products"] is ignored, and when what stands
    between them is not an integer the parse raises [ValueError]. *)
Theorem total_is_read_between_of_and_products (a b tail : string) :
  Py.contains "of" a = false ->
  Py.contains "of" (b ++ "products" ++ tail) = false ->
  Py.has_char "p" b = false ->
  parse_total (a ++ "of" ++ b ++ "products" ++ tail) =
  match Py.int (Py.strip b) with
  | Some n => Ret n
  | None => Exc ValueError
  end.
Proof.
  intros Ha Hrest Hb. unfold parse_total, subscript.
  rewrite (split_cut "of" _ a (b ++ "products" ++ tail))
    by (discriminate || now apply cut_of_first).
  unfold Py.contains in Hrest.
  destruct (Py.cut "of" (b ++ "products" ++ tail)) as [|] eqn:Ec;
    [discriminate|].
  rewrite (split_whole _ _ Ec). cbn [nth_error].
  rewrite (split_cut "products" _ b tail)
    by (discriminate || now apply cut_products_first).
  cbn [nth_error]. reflexivity.
Qed.

(** The summary of the specification's scenario. *)
Lemma total_of_24_products :
  parse_total ("Showing 1-24 " ++ "of" ++ " 24 " ++ "products" ++ "") =
  match Py.int (Py.strip " 24 ") with
  | Some n => Ret n
  | None => Exc ValueError
  end.
Proof.
  apply (total_is_read_between_of_and_products "Showing 1-24 " " 24 " "");
    reflexivity.
Defined.

(** ** Termination of the whole run *)

Lemma finishes_bind {A B} (m : M A) (k : A -> M B) :
  finishes m -> (forall a, finishes (k a)) -> finishes (bind m k).
Proof.
  intros Hm Hk st. unfold bind. specialize (Hm st).
  destruct (m st) as [[a|e|] st1]; cbn in *;
    [apply Hk | discriminate | now elim Hm].
Qed.

Lemma finishes_try_except {A} (body : M A) (handler : exn -> M A) :
  finishes body -> (forall e, finishes (handler e)) ->
  finishes (try_except body handler).
Proof.
  intros Hm Hk st. unfold try_except. specialize (Hm st).
  destruct (body st) as [[a|e|] st1]; cbn in *;
    [discriminate | apply Hk | assumption].
Qed.

Lemma finishes_request (w : World) (c : call) : finishes (request w c).
Proof. intros st. unfold request. destruct (raises w _ c); discriminate. Qed.

Lemma finishes_query {A} (w : World) (c : call) (reply : list event -> A) :
  finishes (query w c reply).
Proof. intros st. unfold query. destruct (raises w _ c); discriminate. Qed.

Lemma finishes_print (m : message) : finishes (print m).
Proof. intros st. discriminate. Qed.

Lemma finishes_wrap_errors {A} (s : stage) (m1 : message)
      (m2 : exn -> message) (body : M A) :
  finishes body -> finishes (wrap_errors s m1 m2 body).
Proof.
  intros H. unfold wrap_errors. apply finishes_try_except; [exact H|].
  intros e st. destruct e; discriminate.
Qed.

Ltac finishes_steps :=
  repeat first
    [ apply finishes_print
    | apply finishes_request
    | apply finishes_query
    | (apply finishes_bind; [|intros ?])
    | apply finishes_wrap_errors
    | (apply finishes_try_except; [|intros ?])
    | (intros ?; discriminate)
    | match goal with
      | |- finishes (if ?b then _ else _) => destruct b
      | |- finishes (match ?x with _ => _ end) => destruct x
      end ].

Lemma finishes_load_session (w : World) : finishes (load_session w).
Proof.
  intros st. unfold load_session.
  destruct (session_file st) as [f|]; [|discriminate].
  revert st. change (finishes
    (try_except
       (print LoadingSession ;;
        request w (OpenRead SESSION_FILE) ;;
        session_data <- json_load w f ;;
        request w (AddCookies (cookies (storage_state session_data))) ;;
        store_cookies (cookies (storage_state session_data)) ;;
        request w (AddInitScript (init_script (session_storage session_data))) ;;
        register_init_script (init_script (session_storage session_data)) ;;
        print SessionLoaded)
       (fun e => print (ErrorLoadingSession e)))).
  unfold json_load. finishes_steps.
Qed.

Lemma finishes_login_if_needed (w : World) : finishes (login_if_needed w).
Proof. unfold login_if_needed. finishes_steps. Qed.

Lemma finishes_navigate_to_product_table (w : World) :
  finishes (navigate_to_product_table w).
Proof. unfold navigate_to_product_table. finishes_steps. Qed.

Lemma finishes_save_to_json (w : World) (data : list Product) :
  finishes (save_to_json w data).
Proof. unfold save_to_json. finishes_steps. Qed.

Lemma finishes_save_session (w : World) : finishes (save_session w).
Proof.
  intros st. destruct (save_session_returns w st) as [-> _].
  discriminate.
Qed.

Lemma finishes_extract_products (w : World) (fuel : nat) :
  grows_only w -> fuel_covers_total w fuel ->
  finishes (extract_products w fuel).
Proof.
  intros Hgrow Hfuel st.
  apply (extract_products_within_fuel w fuel st Hgrow (Hfuel _)).
Qed.

(** On a page that only grows, with a working browser and fuel for one
    pass more than any total the summary may announce, every run of
    [main] ends, and it ends with exit status 0: whichever step fails,
    the process reports success. *)
Theorem main_exits_with_status_zero (w : World) (fuel : nat) (st : State) :
  browser_works w ->
  grows_only w ->
  fuel_covers_total w fuel ->
  exit_status (fst (main w fuel st)) = Some 0.
Proof.
  intros Hworks Hgrow Hfuel.
  assert (finishes (pipeline w fuel)) as Hpipe.
  { unfold pipeline, steps_before_write.
    repeat (apply finishes_bind; [|intros ?]);
      first [ apply finishes_request
            | apply finishes_load_session
            | apply finishes_login_if_needed
            | apply finishes_navigate_to_product_table
            | apply finishes_extract_products; assumption
            | apply finishes_save_to_json
            | apply finishes_save_session ]. }
  unfold main, bind, request.
  rewrite (Hworks (trace st) StartPlaywright) by (simpl; auto).
  unfold try_finally, launched, request.
  rewrite (Hworks _ Launch) by (simpl; auto).
  unfold try_finally, try_except, print.
  match goal with
  | |- context [pipeline w fuel ?s] =>
      specialize (Hpipe s); destruct (pipeline w fuel s) as [[[]|e|] st1]
  end; cbn [fst] in Hpipe; [| |now elim Hpipe];
    unfold request;
    rewrite (Hworks _ CloseBrowser) by (simpl; auto);
    rewrite (Hworks _ StopPlaywright) by (simpl; auto);
    reflexivity.
Qed.

(** A page that never shows more than three of its ten rows. *)
Lemma stalled_run_exits_with_status_zero :
  exit_status (fst (main world_stalled 11 empty_state)) = Some 0.
Proof.
  apply (main_exits_with_status_zero world_stalled 11 empty_state).
  - intros tr c _. reflexivity.
  - intros tr later. apply Z.le_refl.
  - intros tr total H. vm_compute in H. injection H as <-. vm_compute. lia.
Defined.
